(** * tinky-web: the terminal stream adapters

    A shallow embedding of [TerminalWritableStream] and
    [TerminalReadableStream] (src/components/Canvas.tsx, the part that the
    package exports as [utils/streams]) together with the properties the
    design document states about them.

    Layout: JavaScript data first (strings, numbers, the values a caller can
    pass), then the two external collaborators (the xterm.js [Terminal] and
    tinky's [EventEmitter] base class), then the two classes method by
    method, then the theorems. *)

From Stdlib Require Import ZArith NArith List Bool String Ascii DecimalString Lia.
From Stdlib Require Import QArith Qround Qreduction Qcanon.
Import ListNotations.

Local Open Scope Z_scope.
Local Open Scope list_scope.

(* ================================================================== *)
(** ** JavaScript strings *)

(** A JavaScript string is a finite sequence of UTF-16 code units. *)
Definition code_unit := N.
Definition jsstring := list code_unit.

Definition LF : code_unit := 10%N.   (* "\n" *)
Definition CR : code_unit := 13%N.   (* "\r" *)
Definition ESC : code_unit := 27%N.  (* "\x1b" *)

(** A printable ASCII literal of the source, as code units. *)
Definition lit (s : string) : jsstring :=
  map N_of_ascii (list_ascii_of_string s).

(** A literal of the source that starts with ["\x1b"]. *)
Definition esc (body : string) : jsstring := ESC :: lit body.

(** The plain decimal numeral of an integer, the "decimal ASCII" of the
    design document's table: its digits, after a minus sign when it is
    negative. *)
Definition decimal (n : Z) : jsstring :=
  lit (NilEmpty.string_of_int (Z.to_int n)).

(* ================================================================== *)
(** ** JavaScript numbers *)

(** A JavaScript number is a double: a finite value (every finite double is
    a rational), NaN, or an infinity.  -0 and 0 are both [Finite 0]: the code
    modelled here adds to a number, negates it, compares it with 0, floors it
    and prints it, and none of these tells the two zeros apart in what
    reaches the terminal.  Tests, floors and comparisons are exact; a sum is
    rounded ([round64] below). *)
Inductive number :=
| Finite (q : Q)
| NaN
| Infinity (negative : bool).

(** [Math.floor(n)]; of [undefined] it is NaN. *)
Definition Math_floor (n : option number) : number :=
  match n with
  | Some (Finite q) => Finite (inject_Z (Qfloor q))
  | Some n' => n'
  | None => NaN
  end.

(** Truthiness of [n?: number]: [undefined], [0], [-0] and NaN are falsy. *)
Definition truthy_number (n : option number) : bool :=
  match n with
  | Some (Finite q) => negb (Qeq_bool q 0)
  | Some (Infinity _) => true
  | Some NaN => false
  | None => false
  end.

(** [n > 0] *)
Definition gt_zero (n : number) : bool :=
  match n with
  | Finite q => negb (Qle_bool q 0)
  | NaN => false
  | Infinity negative => negb negative
  end.

(** [a ?? b] for [a?: number]: only [undefined] gives way to [b]. *)
Definition nullish (a : option number) (b : number) : number :=
  match a with
  | Some v => v
  | None => b
  end.

(** A strictly positive integer, or +Infinity: the numbers [n] with
    [Math.floor(n) === n] and [n > 0]. *)
Definition positive_whole (n : number) : Prop :=
  (exists z : Z, 0 < z /\ n = Finite (inject_Z z)) \/ n = Infinity false.

(** An integer as a number. *)
Definition of_Z (z : Z) : number := Finite (inject_Z z).

(** The integers on which double arithmetic is exact and unambiguous,
    [Number.isSafeInteger]: magnitude at most 2^53 - 1. *)
Definition safe_integer (z : Z) : Prop := - 2 ^ 53 < z < 2 ^ 53.

(** [n < 0] *)
Definition lt_zero (n : number) : bool :=
  match n with
  | Finite q => negb (Qle_bool 0 q)
  | NaN => false
  | Infinity negative => negative
  end.

(** [-n] *)
Definition Number_neg (a : number) : number :=
  match a with
  | Finite q => Finite (Qopp q)
  | NaN => NaN
  | Infinity negative => Infinity (negb negative)
  end.

(** *** Rounding to a double (IEEE 754 binary64, ties to even) *)

(** [N / D] rounded to the nearest integer, ties to the even one
    ([0 <= N], [0 < D]). *)
Definition round_half_even (N D : Z) : Z :=
  let q := N / D in
  match 2 * (N mod D) ?= D with
  | Lt => q
  | Gt => q + 1
  | Eq => if Z.even q then q else q + 1
  end.

(** The integer [E] with [2^E <= n/d < 2^(E+1)] ([0 < n], [0 < d]). *)
Definition floor_log2 (n d : Z) : Z :=
  let l := Z.log2 n - Z.log2 d in
  if (if 0 <=? l then d * 2 ^ l <=? n else d <=? n * 2 ^ (- l))
  then l else l - 1.

(** The double nearest to [n/d > 0]: 53 significant bits, exponent of the
    last bit not below -1074 (subnormals), overflow to +Infinity. *)
Definition round64_pos (n d : Z) : number :=
  let E := floor_log2 n d in
  let e := Z.max (E - 52) (-1074) in
  if 0 <=? e then
    let m := round_half_even n (d * 2 ^ e) in
    if 2 ^ 1024 <=? m * 2 ^ e then Infinity false
    else Finite (inject_Z (m * 2 ^ e))
  else
    let m := round_half_even (n * 2 ^ (- e)) d in
    Finite (Qred (m # Z.to_pos (2 ^ (- e)))).

Definition round64 (q : Q) : number :=
  let r := Qred q in
  match Qnum r with
  | Z0 => Finite 0
  | Zpos p => round64_pos (Zpos p) (QDen r)
  | Zneg p => Number_neg (round64_pos (Zpos p) (QDen r))
  end.

(** [a + b] *)
Definition Number_add (a b : number) : number :=
  match a, b with
  | NaN, _ => NaN
  | _, NaN => NaN
  | Infinity s, Infinity t => if Bool.eqb s t then Infinity s else NaN
  | Infinity s, Finite _ => Infinity s
  | Finite _, Infinity t => Infinity t
  | Finite p, Finite q => round64 (p + q)
  end.

(** Whether two numbers are the same double. *)
Definition number_eqb (a b : number) : bool :=
  match a, b with
  | Finite p, Finite q => Qeq_bool p q
  | Infinity s, Infinity t => Bool.eqb s t
  | _, _ => false
  end.

(** *** [Number::toString] (ECMAScript 6.1.6.1.20, radix 10) *)

(** The least [t' >= t] with [n/d < 10^t'] ([n/d >= 10^(t-1)]). *)
Fixpoint count_up (fuel : nat) (n d t : Z) : Z :=
  match fuel with
  | O => t
  | S f => if n <? d * 10 ^ t then t else count_up f n d (t + 1)
  end.

(** The same downwards, for [n/d < 10^t]. *)
Fixpoint count_down (fuel : nat) (n d t : Z) : Z :=
  match fuel with
  | O => t
  | S f => if n * 10 ^ (1 - t) <? d then count_down f n d (t - 1) else t
  end.

(** The integer [n0] with [10^(n0-1) <= n/d < 10^n0]; a double lies between
    10^-324 and 10^309. *)
Definition digits10 (n d : Z) : Z :=
  if d <=? n then count_up 400 n d 1 else count_down 400 n d 0.

(** [floor((n/d) / 10^m)] *)
Definition scaled_floor (n d m : Z) : Z :=
  if 0 <=? m then n / (d * 10 ^ m) else (n * 10 ^ (- m)) / d.

(** [s * 10^m] *)
Definition dec (s m : Z) : Q :=
  if 0 <=? m then inject_Z (s * 10 ^ m) else s # Z.to_pos (10 ^ (- m)).

(** Step 5 of the algorithm: the fewest digits [k], from [k] upwards, for
    which a decimal [s * 10^m] of [k] digits denotes the double [x > 0]
    (rounds to it).  With [k] digits only the two decimals around [x] can
    do so; when both do, the nearer one is taken, the even one on a tie.
    17 digits always suffice. *)
Fixpoint shortest (fuel : nat) (x : Q) (n0 k : Z) : Z * Z :=
  let m := n0 - k in
  let lo := scaled_floor (Qnum x) (QDen x) m in
  let hi := lo + 1 in
  let ok := fun v => number_eqb (round64 v) (Finite x) in
  match fuel with
  | O => (lo, m)
  | S f =>
      if ok (dec lo m) then
        if ok (dec hi m) then
          match (x - dec lo m ?= dec hi m - x)%Q with
          | Lt => (lo, m)
          | Gt => (hi, m)
          | Eq => if Z.even lo then (lo, m) else (hi, m)
          end
        else (lo, m)
      else if ok (dec hi m) then (hi, m)
      else shortest f x n0 (k + 1)
  end.

(** [s] without its trailing zeros, counted into the exponent. *)
Fixpoint strip_zeros (fuel : nat) (s m : Z) : Z * Z :=
  match fuel with
  | O => (s, m)
  | S f =>
      if (s mod 10 =? 0) && (0 <? s)
      then strip_zeros f (s / 10) (m + 1)
      else (s, m)
  end.

(** The number of decimal digits of [s > 0]. *)
Definition ndigits (s : Z) : Z := count_up 400 s 1 1.

Definition zeros (n : Z) : jsstring := repeat 48%N (Z.to_nat n).

(** The digits of [z], with zeros in front up to [len] digits. *)
Definition padded (z len : Z) : jsstring :=
  if z =? 0 then zeros len else zeros (len - ndigits z) ++ decimal z.

(** Steps 6 to 10: the digits [s] (there are [k] of them) and the position
    [n = k + m] of the decimal point laid out.  An integer below 10^21 is
    its digits followed by zeros, that is its decimal numeral; otherwise a
    fraction, a leading ["0."], or exponent notation. *)
Definition format (s0 m0 : Z) : jsstring :=
  let '(s, m) := strip_zeros 400 s0 m0 in
  if (0 <=? m) && (s * 10 ^ m <? 10 ^ 21) then decimal (s * 10 ^ m)
  else
    let k := ndigits s in
    let n := k + m in
    if (0 <? n) && (n <=? 21) then
      decimal (s / 10 ^ (k - n)) ++ lit "."
        ++ padded (s mod 10 ^ (k - n)) (k - n)
    else if (-6 <? n) && (n <=? 0) then
      lit "0." ++ zeros (- n) ++ decimal s
    else
      (if k =? 1 then decimal s
       else decimal (s / 10 ^ (k - 1)) ++ lit "."
              ++ padded (s mod 10 ^ (k - 1)) (k - 1))
      ++ lit "e" ++ (if 0 <=? n - 1 then lit "+" else lit "-")
      ++ decimal (Z.abs (n - 1)).

Definition toString_pos (x : Q) : jsstring :=
  let '(s, m) := shortest 17 x (digits10 (Qnum x) (QDen x)) 1 in
  format s m.

(** [${x}] inside a template literal, for a number [x] (a double). *)
Definition Number_toString (x : number) : jsstring :=
  match x with
  | NaN => lit "NaN"
  | Infinity negative => if negative then lit "-Infinity" else lit "Infinity"
  | Finite q =>
      let r := Qred q in
      match Qnum r with
      | Z0 => lit "0"
      | Zpos _ => toString_pos r
      | Zneg _ => lit "-" ++ toString_pos (Qopp r)
      end
  end.

Arguments Number_toString : simpl never.
Arguments Number_add : simpl never.


(* ================================================================== *)
(** ** [str.replace(/(?<!\r)\n/g, "\r\n")] *)

(** The look-behind [(?<!\r)] at one index of the subject string: [before]
    is the code unit of the subject just left of that index, absent at
    index 0.  It looks at the subject, never at what has been produced. *)
Definition not_after_CR (before : option code_unit) : bool :=
  match before with
  | Some p => negb (p =? CR)%N
  | None => true
  end.

(** The whole pattern [(?<!\r)\n] tried at one index holding [c]. *)
Definition matches_here (before : option code_unit) (c : code_unit) : bool :=
  not_after_CR before && (c =? LF)%N.

(** The global replace: the subject is scanned left to right; a match (always
    one code unit long) is replaced by ["\r\n"], which has no [$] pattern and
    is therefore inserted literally; any other code unit is copied. *)
Fixpoint replace_from (before : option code_unit) (rest : jsstring) : jsstring :=
  match rest with
  | [] => []
  | c :: rest' =>
      (if matches_here before c then [CR; LF] else [c])
        ++ replace_from (Some c) rest'
  end.

Definition processedStr (str : jsstring) : jsstring := replace_from None str.

(** *** The normalization as the design document words it *)

(** Index [i] of [s] holds a line feed that is not immediately preceded by a
    carriage return. *)
Definition bare_LF_at (s : jsstring) (i : nat) : bool :=
  match nth_error s i with
  | Some c =>
      (c =? LF)%N &&
      match i with
      | O => true
      | S j => match nth_error s j with
               | Some p => negb (p =? CR)%N
               | None => true
               end
      end
  | None => false
  end.

(** Every such line feed becomes carriage return + line feed; every other
    code unit stays. *)
Definition normalize (s : jsstring) : jsstring :=
  flat_map
    (fun i => match nth_error s i with
              | Some c => if bare_LF_at s i then [CR; LF] else [c]
              | None => []
              end)
    (seq 0 (List.length s)).

(** The same rule on a string without carriage returns: every line feed is
    expanded. *)
Definition expand_every_LF (s : jsstring) : jsstring :=
  flat_map (fun c => if (c =? LF)%N then [CR; LF] else [c]) s.

(* ================================================================== *)
(** ** Values a caller can pass *)

(** A function of the client (a completion callback, an event listener).
    The adapters only ever call such a function, so it is known by its
    identity. *)
Definition callback := nat.

Inductive value :=
| VUndefined
| VNull
| VBoolean (b : bool)
| VNumber (n : Z)
| VString (s : jsstring)
| VFunction (f : callback).

(** [v === n] for a number literal [n]. *)
Definition strict_eq_number (v : value) (n : Z) : bool :=
  match v with
  | VNumber m => m =? n
  | _ => false
  end.

(** The type of [cursorTo]'s second parameter,
    [y?: number | (() => void)]. *)
Inductive number_or_callback :=
| Undefined
| Number (n : number)
| Function (f : callback).

(** [if (chunk)] for [chunk?: string]: [undefined] and the empty string are
    falsy, every other string is truthy. *)
Definition truthy_string (chunk : option jsstring) : bool :=
  match chunk with
  | None => false
  | Some [] => false
  | Some (_ :: _) => true
  end.

(* ================================================================== *)
(** ** The collaborators and the two adapter objects *)

Module Terminal.
(** A subscriber of the terminal's [onData] event.  The adapters create
    exactly one kind of subscriber, the arrow function of
    [TerminalReadableStream]'s constructor, which closes over the stream;
    any other subscriber belongs to the client. *)
Inductive data_listener :=
| ForwardToStdin
| Client (f : callback).

(** The part of the xterm.js [Terminal] the adapters read: its size and
    the subscribers of its input event.  What it has been asked to
    [write] is kept in the trace below. *)
Record t := mk {
  cols : Z;
  rows : Z;
  onData : list data_listener
}.
End Terminal.

Module EventEmitter.
(** Modelled from the spec: the base class [EventEmitter] comes from
    [tinky/lib/utils/event-emitter], a package outside this repository.
    Section 3 of the design document describes it: named channels,
    several subscribers per channel, synchronous delivery, subscribers of
    one channel notified in subscription order.  The state is the
    subscriptions, oldest first. *)
Definition t := list (string * callback).

Definition empty : t := [].

(** [emitter.on(eventName, listener)] *)
Definition on (eventName : string) (listener : callback) (e : t) : t :=
  e ++ [(eventName, listener)].

(** The subscribers [emit(eventName, ...)] notifies, in order. *)
Definition listeners (eventName : string) (e : t) : list callback :=
  map snd (filter (fun s => String.eqb (fst s) eventName) e).
End EventEmitter.

Module TerminalWritableStream.
(** The fields of the class.  [private term: Terminal] is a reference to
    the one terminal of the heap below. *)
Record t := mk {
  isTTY : bool;
  columns : Z;
  rows : Z;
  writable : bool;
  events : EventEmitter.t   (* inherited from EventEmitter *)
}.

Definition set_columns (v : Z) (o : t) : t :=
  mk (isTTY o) v (rows o) (writable o) (events o).
Definition set_rows (v : Z) (o : t) : t :=
  mk (isTTY o) (columns o) v (writable o) (events o).
Definition set_events (v : EventEmitter.t) (o : t) : t :=
  mk (isTTY o) (columns o) (rows o) (writable o) v.
End TerminalWritableStream.

Module TerminalReadableStream.
Record t := mk {
  isTTY : bool;
  isRaw : bool;
  readable : bool;
  fd : Z;
  events : EventEmitter.t   (* inherited from EventEmitter *)
}.

Definition set_isRaw (v : bool) (o : t) : t :=
  mk (isTTY o) v (readable o) (fd o) (events o).
Definition set_events (v : EventEmitter.t) (o : t) : t :=
  mk (isTTY o) (isRaw o) (readable o) (fd o) v.
End TerminalReadableStream.

(** The objects alive once the component has mounted: one terminal and the
    two adapters built around it.  Both adapters' [term] field points to
    [term], which the owning component mutates too (it resizes it). *)
Record Heap := mkHeap {
  term : Terminal.t;
  stdout : TerminalWritableStream.t;
  stdin : TerminalReadableStream.t
}.

Definition set_term (v : Terminal.t) (h : Heap) : Heap :=
  mkHeap v (stdout h) (stdin h).
Definition set_stdout (v : TerminalWritableStream.t) (h : Heap) : Heap :=
  mkHeap (term h) v (stdin h).
Definition set_stdin (v : TerminalReadableStream.t) (h : Heap) : Heap :=
  mkHeap (term h) (stdout h) v.

(** The two event emitters of the heap; also what a method returns when the
    source returns [this]. *)
Inductive emitter := Stdout | Stdin.

Definition events_of (src : emitter) (h : Heap) : EventEmitter.t :=
  match src with
  | Stdout => TerminalWritableStream.events (stdout h)
  | Stdin => TerminalReadableStream.events (stdin h)
  end.

(** What the adapters do to the outside, in the order they do it. *)
Inductive event :=
| TermWrite (data : jsstring)
    (* [this.term.write(data)] *)
| Emit (src : emitter) (eventName : string) (args : list value) (seen : Heap)
    (* [this.emit(eventName, ...args)]; [seen] is the heap at the call *)
| Call (f : callback) (args : list value) (seen : Heap).
    (* client function [f] called with [args]; [seen] is the heap as [f]
       finds it *)

Record State := mkState {
  heap : Heap;
  trace : list event
}.

(* ================================================================== *)
(** ** Sequencing *)

Definition M (A : Type) : Type := State -> A * State.

Definition ret {A} (a : A) : M A := fun s => (a, s).

Definition bind {A B} (m : M A) (k : A -> M B) : M B :=
  fun s => let (a, s') := m s in k a s'.

Notation "x <- m ;; k" := (bind m (fun x => k))
  (at level 61, m at next level, right associativity).
Notation "m ;; k" := (bind m (fun _ => k))
  (at level 61, right associativity).

Definition gets {A} (f : Heap -> A) : M A := fun s => (f (heap s), s).

Definition modify (f : Heap -> Heap) : M unit :=
  fun s => (tt, mkState (f (heap s)) (trace s)).

Definition log (e : event) : M unit :=
  fun s => (tt, mkState (heap s) (trace s ++ [e])).

Fixpoint for_each {A} (xs : list A) (body : A -> M unit) : M unit :=
  match xs with
  | [] => ret tt
  | x :: xs' => body x ;; for_each xs' body
  end.

(** State and result of running a method. *)
Definition exec {A} (m : M A) (s : State) : State := snd (m s).
Definition result {A} (m : M A) (s : State) : A := fst (m s).

(* ================================================================== *)
(** ** Calls that leave the adapters *)

(** [this.term.write(data)] *)
Definition term_write (data : jsstring) : M unit := log (TermWrite data).

(** [f(...args)] for a client function [f]. *)
Definition call (f : callback) (args : list value) : M unit :=
  h <- gets (fun h => h) ;; log (Call f args h).

(** [if (callback) callback();] *)
Definition call_if_given (cb : option callback) : M unit :=
  match cb with
  | Some f => call f []
  | None => ret tt
  end.

(** [this.emit(eventName, ...args)]: every subscriber of the channel is
    called synchronously, in subscription order; the result tells whether
    there was one. *)
Definition emit (this : emitter) (eventName : string) (args : list value)
  : M bool :=
  h <- gets (fun h => h) ;;
  log (Emit this eventName args h) ;;
  ls <- gets (fun h => EventEmitter.listeners eventName (events_of this h)) ;;
  for_each ls (fun l => call l args) ;;
  ret (negb (match ls with [] => true | _ => false end)).

(** [stream.on(eventName, listener)], as the client calls it. *)
Definition on (this : emitter) (eventName : string) (listener : callback)
  : M emitter :=
  modify (fun h =>
    match this with
    | Stdout =>
        set_stdout (TerminalWritableStream.set_events
                      (EventEmitter.on eventName listener (events_of Stdout h))
                      (stdout h)) h
    | Stdin =>
        set_stdin (TerminalReadableStream.set_events
                     (EventEmitter.on eventName listener (events_of Stdin h))
                     (stdin h)) h
    end) ;;
  ret this.

(* ================================================================== *)
(** ** class TerminalWritableStream *)

(** [constructor(term)]: [this.columns = term.cols; this.rows = term.rows],
    the field initialisers [isTTY = true] and [writable = true], and the
    empty emitter of [super()]. *)
Definition new_TerminalWritableStream (terminal : Terminal.t)
  : TerminalWritableStream.t :=
  TerminalWritableStream.mk
    true (Terminal.cols terminal) (Terminal.rows terminal) true
    EventEmitter.empty.

(** [write(str, _encoding?, cb?)] *)
Definition write (str : jsstring) (_encoding : option jsstring)
    (cb : option callback) : M bool :=
  term_write (processedStr str) ;;
  call_if_given cb ;;
  ret true.

(** [end(chunk?, callback?)]; [end] is a keyword here. *)
Definition end_ (chunk : option jsstring) (callback : option callback)
  : M emitter :=
  (if truthy_string chunk
   then
     match chunk with
     | Some c => write c None callback ;; ret tt
     | None => ret tt
     end
   else ret tt) ;;
  ret Stdout.

(** [getWindowSize()] *)
Definition getWindowSize : M (Z * Z) :=
  gets (fun h => (TerminalWritableStream.columns (stdout h),
                  TerminalWritableStream.rows (stdout h))).

(** [clearLine(dir, callback?)] *)
Definition clearLine (dir : value) (callback : option callback) : M bool :=
  (if strict_eq_number dir (-1) then term_write (esc "[1K")
   else if strict_eq_number dir 1 then term_write (esc "[0K")
   else term_write (esc "[2K")) ;;
  call_if_given callback ;;
  ret true.

(** [clearScreenDown(callback?)] *)
Definition clearScreenDown (callback : option callback) : M bool :=
  term_write (esc "[J") ;;
  call_if_given callback ;;
  ret true.

(** [cursorTo(x, y?, callback?)].  The first [if] rebinds both parameters
    when [y] is a function. *)
Definition cursorTo (x : number) (y : number_or_callback)
    (callback : option callback) : M bool :=
  let '(y, callback) :=
    match y with
    | Function f => (Undefined, Some f)     (* typeof y === "function" *)
    | _ => (y, callback)
    end in
  match y with
  | Number y =>                             (* y !== undefined *)
      term_write (esc "[" ++ Number_toString (Number_add y (of_Z 1)) ++ lit ";"
                    ++ Number_toString (Number_add x (of_Z 1)) ++ lit "H")
  | _ =>
      term_write (esc "[" ++ Number_toString (Number_add x (of_Z 1)) ++ lit "G")
  end ;;
  call_if_given callback ;;
  ret true.

(** [moveCursor(dx, dy, callback?)]: four independent [if]s. *)
Definition moveCursor (dx dy : number) (callback : option callback) : M bool :=
  (if gt_zero dx
   then term_write (esc "[" ++ Number_toString dx ++ lit "C")
   else ret tt) ;;
  (if lt_zero dx
   then term_write (esc "[" ++ Number_toString (Number_neg dx) ++ lit "D")
   else ret tt) ;;
  (if gt_zero dy
   then term_write (esc "[" ++ Number_toString dy ++ lit "B")
   else ret tt) ;;
  (if lt_zero dy
   then term_write (esc "[" ++ Number_toString (Number_neg dy) ++ lit "A")
   else ret tt) ;;
  call_if_given callback ;;
  ret true.

(** [updateDimensions()] *)
Definition updateDimensions : M unit :=
  cols <- gets (fun h => Terminal.cols (term h)) ;;
  modify (fun h => set_stdout (TerminalWritableStream.set_columns cols (stdout h)) h) ;;
  rows <- gets (fun h => Terminal.rows (term h)) ;;
  modify (fun h => set_stdout (TerminalWritableStream.set_rows rows (stdout h)) h) ;;
  emit Stdout "resize" [] ;;
  ret tt.

(* ================================================================== *)
(** ** class TerminalReadableStream *)

(** [constructor(term)]: the field initialisers, and [this.term.onData(...)]
    which subscribes the forwarding arrow function after the subscribers
    the terminal already has. *)
Definition new_TerminalReadableStream (terminal : Terminal.t)
  : TerminalReadableStream.t * Terminal.t :=
  (TerminalReadableStream.mk true true true 0 EventEmitter.empty,
   Terminal.mk (Terminal.cols terminal) (Terminal.rows terminal)
     (Terminal.onData terminal ++ [Terminal.ForwardToStdin])).

(** [read(_size?)] *)
Definition read (_size : option Z) : M (option jsstring) := ret None.

(** [setRawMode(mode)] *)
Definition setRawMode (mode : bool) : M emitter :=
  modify (fun h => set_stdin (TerminalReadableStream.set_isRaw mode (stdin h)) h) ;;
  ret Stdin.

(** [setEncoding(_encoding)] *)
Definition setEncoding (_encoding : jsstring) : M unit := ret tt.

(** [resume()], [pause()], [ref()] *)
Definition resume : M emitter := ret Stdin.
Definition pause : M emitter := ret Stdin.
Definition ref : M emitter := ret Stdin.

(** [unref()] *)
Definition unref : M unit := ret tt.

(* ================================================================== *)
(** ** The owning component and the terminal's side *)

(** [const stdout = new TerminalWritableStream(terminal);
     const stdin = new TerminalReadableStream(terminal);] (the component
    builds a second writable stream, [stderr], the same way). *)
Definition mount (terminal : Terminal.t) : State :=
  let out := new_TerminalWritableStream terminal in
  let (inp, terminal') := new_TerminalReadableStream terminal in
  mkState (mkHeap terminal' out inp) [].

(** [terminal.resize(cols, rows)], called by the owning component with two
    integers.  xterm.js keeps at least 2 columns and 1 row
    ([Math.max(x, MINIMUM_COLS)], [Math.max(y, MINIMUM_ROWS)]). *)
Definition Terminal_resize (cols rows : Z) : M unit :=
  modify (fun h =>
    set_term (Terminal.mk (Z.max cols 2) (Z.max rows 1)
                (Terminal.onData (term h))) h).

(** One subscriber of [onData] receiving [data].  The adapter's own is
    [(data) => { this.emit("data", data); }]. *)
Definition run_data_listener (data : jsstring) (l : Terminal.data_listener)
  : M unit :=
  match l with
  | Terminal.ForwardToStdin => emit Stdin "data" [VString data] ;; ret tt
  | Terminal.Client f => call f [VString data]
  end.

(** The terminal reports one input chunk: every [onData] subscriber is
    called with it, in subscription order. *)
Definition Terminal_input (data : jsstring) : M unit :=
  ls <- gets (fun h => Terminal.onData (term h)) ;;
  for_each ls (run_data_listener data).

(** The terminal reports a sequence of chunks, one after the other. *)
Definition Terminal_inputs (chunks : list jsstring) : M unit :=
  for_each chunks Terminal_input.

(* ================================================================== *)
(** ** Reading a trace *)

(** The arguments of the [term.write] calls, in order. *)
Definition written (tr : list event) : list jsstring :=
  flat_map (fun e => match e with TermWrite d => [d] | _ => [] end) tr.

(** The notifications published by [src], in order: channel and payload. *)
Definition emitted (src : emitter) (tr : list event)
  : list (string * list value) :=
  flat_map (fun e =>
    match e, src with
    | Emit Stdout n a _, Stdout => [(n, a)]
    | Emit Stdin n a _, Stdin => [(n, a)]
    | _, _ => []
    end) tr.

(** The arguments client function [f] has been called with, in order. *)
Definition calls_of (f : callback) (tr : list event) : list (list value) :=
  flat_map (fun e =>
    match e with
    | Call g a _ => if Nat.eqb g f then [a] else []
    | _ => []
    end) tr.

(** The events of one completion callback. *)
Definition completion (cb : option callback) (h : Heap) : list event :=
  match cb with
  | Some f => [Call f [] h]
  | None => []
  end.

(** The events of one [emit] on a heap [h]: the publication, then one call
    per subscriber of the channel. *)
Definition publication (src : emitter) (eventName : string)
    (args : list value) (h : Heap) : list event :=
  Emit src eventName args h
    :: map (fun l => Call l args h)
         (EventEmitter.listeners eventName (events_of src h)).

(** *** The escape sequences as the design document's table gives them *)

Definition seq_cursor_column (x : Z) : jsstring :=
  [ESC] ++ lit "[" ++ decimal (x + 1) ++ lit "G".

Definition seq_cursor_position (x y : Z) : jsstring :=
  [ESC] ++ lit "[" ++ decimal (y + 1) ++ lit ";"
        ++ decimal (x + 1) ++ lit "H".

Definition seq_move (n : Z) (final : string) : jsstring :=
  [ESC] ++ lit "[" ++ decimal n ++ lit final.

(** Horizontal part of a relative move: right, left or nothing. *)
Definition horizontal_move (deltaX : Z) : list jsstring :=
  if deltaX >? 0 then [seq_move deltaX "C"]
  else if deltaX <? 0 then [seq_move (Z.abs deltaX) "D"]
  else [].

(** Vertical part of a relative move: down, up or nothing. *)
Definition vertical_move (deltaY : Z) : list jsstring :=
  if deltaY >? 0 then [seq_move deltaY "B"]
  else if deltaY <? 0 then [seq_move (Z.abs deltaY) "A"]
  else [].

(** *** The cursor sequences as the source builds them, for any number *)

(** [`\x1b[${x + 1}G`] *)
Definition column_sequence (x : number) : jsstring :=
  esc "[" ++ Number_toString (Number_add x (of_Z 1)) ++ lit "G".

(** [`\x1b[${y + 1};${x + 1}H`] *)
Definition position_sequence (x y : number) : jsstring :=
  esc "[" ++ Number_toString (Number_add y (of_Z 1)) ++ lit ";"
    ++ Number_toString (Number_add x (of_Z 1)) ++ lit "H".

(** [`\x1b[${n}C`] and the like. *)
Definition move_sequence (n : number) (final : string) : jsstring :=
  esc "[" ++ Number_toString n ++ lit final.

(** What [moveCursor] writes for one delta: the delta itself with the
    [forward] letter when it is above 0, its negation with the [backward]
    letter when it is below 0, nothing for 0 and for NaN. *)
Definition move_writes (delta : number) (forward backward : string)
  : list jsstring :=
  (if gt_zero delta then [move_sequence delta forward] else [])
  ++ (if lt_zero delta then [move_sequence (Number_neg delta) backward] else []).

(** The erase-line sequence for a direction. *)
Definition seq_erase_line (direction : value) : jsstring :=
  match direction with
  | VNumber (-1) => [ESC] ++ lit "[1K"
  | VNumber 1 => [ESC] ++ lit "[0K"
  | _ => [ESC] ++ lit "[2K"
  end.

(** The forwarding subscriptions a terminal holds: one per
    [TerminalReadableStream] constructed on it. *)
Definition is_forward (l : Terminal.data_listener) : bool :=
  match l with
  | Terminal.ForwardToStdin => true
  | Terminal.Client _ => false
  end.

Definition forwarders (t : Terminal.t) : nat :=
  List.length (filter is_forward (Terminal.onData t)).

(** The events of one [onData] subscriber receiving [data] on heap [h]. *)
Definition data_events (data : jsstring) (h : Heap)
    (l : Terminal.data_listener) : list event :=
  match l with
  | Terminal.ForwardToStdin => publication Stdin "data" [VString data] h
  | Terminal.Client f => [Call f [VString data] h]
  end.

(** The events of the terminal reporting the chunk [data] on heap [h]. *)
Definition input_events (h : Heap) (data : jsstring) : list event :=
  flat_map (data_events data h) (Terminal.onData (term h)).

(** The heap [updateDimensions] leaves: the stream's two cached sizes are
    the terminal's. *)
Definition synced (h : Heap) : Heap :=
  set_stdout
    (TerminalWritableStream.mk
       (TerminalWritableStream.isTTY (stdout h))
       (Terminal.cols (term h))
       (Terminal.rows (term h))
       (TerminalWritableStream.writable (stdout h))
       (TerminalWritableStream.events (stdout h)))
    h.

(** The state the test suite starts from: a terminal of 80 columns and 24
    rows without subscribers, freshly mounted. *)
Definition fresh : State := mount (Terminal.mk 80 24 []).

(** The code unit just left of the end of [p], absent when [p] is empty. *)
Definition last_unit (p : jsstring) : option code_unit :=
  match List.length p with
  | O => None
  | S j => nth_error p j
  end.

(* ================================================================== *)
(** ** Measures on strings and runs of calls *)

(** How many indices of [s] hold a line feed that does not follow a
    carriage return. *)
Definition count_bare_LF (s : jsstring) : nat :=
  List.length (filter (bare_LF_at s) (seq 0 (List.length s))).

(** [s] without its carriage returns. *)
Definition strip_CR (s : jsstring) : jsstring :=
  filter (fun c => negb (c =? CR)%N) s.

(** [for (const str of strs) stdout.write(str);] *)
Definition write_all (strs : list jsstring) : M unit :=
  for_each strs (fun str => write str None None ;; ret tt).

(* ================================================================== *)
(** ** components/Tinky.tsx: the effect that sizes the terminal *)

Module ITerminalDimensions.
(** [ITerminalDimensions] of @xterm/addon-fit. *)
Record t := mk {
  rows : number;
  cols : number
}.
End ITerminalDimensions.

Module Tinky.

(** What one run of the effect leaves behind: the [terminal.resize(c, r)]
    call it made, if any, and whether a [ResizeObserver] now watches the
    container. *)
Record outcome := mkOutcome {
  resize : option (number * number);
  observer : bool
}.

(** [onContainerSizeChanged], the closure of the effect.  [fitAddon] is
    [fitAddonRef.current] ([None] for [null]) together with what its
    [proposeDimensions()] answers at this moment ([None] for
    [undefined]). *)
Definition onContainerSizeChanged (cols rows : option number)
    (fitAddon : option (option ITerminalDimensions.t))
  : option (number * number) :=
  match fitAddon with
  | Some proposeDimensions =>
      match proposeDimensions with
      | Some dimensions =>
          let targetCols :=
            Math_floor (Some (nullish cols (ITerminalDimensions.cols dimensions))) in
          let targetRows :=
            Math_floor (Some (nullish rows (ITerminalDimensions.rows dimensions))) in
          if gt_zero targetCols && gt_zero targetRows
          then Some (targetCols, targetRows)
          else None
      | None => None
      end
  | None => None
  end.

(** The effect with dependencies [[cols, rows]].  [terminal] and [container]
    tell whether [terminalRef.current] and [containerRef.current] are
    set. *)
Definition resize_effect (terminal container : bool)
    (cols rows : option number)
    (fitAddon : option (option ITerminalDimensions.t)) : outcome :=
  if negb terminal || negb container then mkOutcome None false
  else if truthy_number cols && truthy_number rows
  then mkOutcome (Some (Math_floor cols, Math_floor rows)) false
  else mkOutcome (onContainerSizeChanged cols rows fitAddon) true.

End Tinky.

(* ================================================================== *)
(** ** components/Canvas.tsx *)

Module Canvas.

#[local] Set Warnings "-register-all".

(** A value of type [unknown]; an object is its own properties, first
    binding of a key first. *)
Inductive unknown :=
| JUndefined
| JNull
| JBoolean (b : bool)
| JNumber (n : number)
| JString (s : jsstring)
| JFunction (f : callback)
| JObject (props : list (string * unknown)).

(** [typeof v] *)
Definition typeof (v : unknown) : string :=
  match v with
  | JUndefined => "undefined"
  | JNull => "object"
  | JBoolean _ => "boolean"
  | JNumber _ => "number"
  | JString _ => "string"
  | JFunction _ => "function"
  | JObject _ => "object"
  end.

Fixpoint lookup (key : string) (props : list (string * unknown)) : unknown :=
  match props with
  | [] => JUndefined
  | (k, v) :: props' => if String.eqb k key then v else lookup key props'
  end.

(** [v.key], read where [v] is known to be a non-null object; a missing
    property reads as [undefined]. *)
Definition get (v : unknown) (key : string) : unknown :=
  match v with
  | JObject props => lookup key props
  | _ => JUndefined
  end.

(** [v === null] *)
Definition is_null (v : unknown) : bool :=
  match v with
  | JNull => true
  | _ => false
  end.

(** The type guard [hasValidDimensions]. *)
Definition hasValidDimensions (stdout : unknown) : bool :=
  if negb (String.eqb (typeof stdout) "object") || is_null stdout then false
  else
    String.eqb (typeof (get stdout "columns")) "number"
    && String.eqb (typeof (get stdout "rows")) "number".

(** The [width] and [height] the component gives its [Box]. *)
Definition fallback : unknown * unknown :=
  (JNumber (Finite 80), JNumber (Finite 24)).

(** One render.  [window] tells whether [typeof window] is not
    ["undefined"]; [useStdout] is the [stdout] the hook hands out, [None]
    when the hook throws; [size] is the state cell of [useState], [None]
    before the first render has initialised it. *)
Definition Canvas (window : bool) (useStdout : option unknown)
    (size : option (unknown * unknown)) : unknown * unknown :=
  if negb window then fallback
  else
    match useStdout with
    | Some stdout =>
        if negb (hasValidDimensions stdout) then fallback
        else
          match size with
          | Some current => current
          | None => (get stdout "columns", get stdout "rows")
          end
    | None => fallback
    end.

(** A [TerminalWritableStream] seen as a value: its own properties (the
    methods live on the prototype). *)
Definition of_stream (o : TerminalWritableStream.t) : unknown :=
  JObject
    [("isTTY"%string, JBoolean (TerminalWritableStream.isTTY o));
     ("columns"%string,
        JNumber (Finite (inject_Z (TerminalWritableStream.columns o))));
     ("rows"%string,
        JNumber (Finite (inject_Z (TerminalWritableStream.rows o))));
     ("writable"%string, JBoolean (TerminalWritableStream.writable o))].

(** The state cell [size] after the calls of a trace, when [stdout] is the
    stream of the heap and [onResize] is the listener of the effect:
    [setSize({ columns: stdout.columns, rows: stdout.rows })] stores the
    sizes the stream has when the listener runs. *)
Definition size_after (onResize : callback) (initial : Z * Z)
    (tr : list event) : Z * Z :=
  fold_left
    (fun size e =>
       match e with
       | Call f _ seen =>
           if Nat.eqb f onResize
           then (TerminalWritableStream.columns (stdout seen),
                 TerminalWritableStream.rows (stdout seen))
           else size
       | _ => size
       end)
    tr initial.

End Canvas.

(* ================================================================== *)
(** * Properties of the line-ending replacement *)

Section Replace.

Lemma last_unit_snoc (p : jsstring) (c : code_unit) :
  last_unit (p ++ [c]) = Some c.
Proof.
  unfold last_unit. rewrite length_app. simpl.
  replace (List.length p + 1)%nat with (S (List.length p)) by lia.
  rewrite nth_error_app2 by lia.
  now rewrite Nat.sub_diag.
Qed.

(** What the replacement does at the boundary between an already scanned
    prefix [p] and the code unit [c] is what the worded rule says of index
    [length p]. *)
Lemma bare_LF_at_boundary (p r : jsstring) (c : code_unit) :
  bare_LF_at (p ++ c :: r) (List.length p) = matches_here (last_unit p) c.
Proof.
  unfold bare_LF_at, matches_here, last_unit, not_after_CR.
  rewrite nth_error_app2 by lia. rewrite Nat.sub_diag. simpl.
  destruct (List.length p) as [|j] eqn:E.
  - now rewrite andb_true_r.
  - rewrite nth_error_app1 by lia.
    destruct (nth_error p j); [apply andb_comm | now rewrite andb_true_r].
Qed.

Lemma replace_from_scan (r p : jsstring) :
  replace_from (last_unit p) r =
  flat_map
    (fun i => match nth_error (p ++ r) i with
              | Some c => if bare_LF_at (p ++ r) i then [CR; LF] else [c]
              | None => []
              end)
    (seq (List.length p) (List.length r)).
Proof.
  revert p. induction r as [|c r IH]; intro p; [reflexivity|].
  cbn [replace_from List.length seq flat_map].
  rewrite bare_LF_at_boundary.
  rewrite nth_error_app2 by lia. rewrite Nat.sub_diag. cbn [nth_error].
  f_equal.
  specialize (IH (p ++ [c])).
  rewrite last_unit_snoc, length_app, <- app_assoc in IH. simpl in IH.
  replace (List.length p + 1)%nat with (S (List.length p)) in IH by lia.
  exact IH.
Qed.

(** The replacement of the source is the normalization of the design
    document. *)
Lemma processedStr_normalize (str : jsstring) :
  processedStr str = normalize str.
Proof. exact (replace_from_scan str []). Qed.

Lemma replace_from_app (p q : jsstring) (b : option code_unit) :
  replace_from b (p ++ q) =
  replace_from b p
    ++ replace_from (match last_unit p with Some c => Some c | None => b end) q.
Proof.
  revert b. induction p as [|c p IH]; intro b; [reflexivity|].
  cbn [app replace_from]. rewrite IH, <- app_assoc. do 2 f_equal.
  destruct p as [|d p]; [reflexivity|].
  unfold last_unit. cbn [List.length nth_error].
  destruct (nth_error (d :: p) (List.length p)) eqn:E; [reflexivity|].
  apply nth_error_None in E. simpl in E. lia.
Qed.

(** A carriage return is never matched. *)
Lemma replace_from_CR (b : option code_unit) : replace_from b [CR] = [CR].
Proof. cbn. unfold matches_here. cbn. now rewrite andb_false_r. Qed.

Lemma replace_from_no_CR (s : jsstring) (b : option code_unit) :
  ~ In CR s -> not_after_CR b = true ->
  replace_from b s = expand_every_LF s.
Proof.
  revert b. induction s as [|c s IH]; intros b HnoCR Hb; [reflexivity|].
  cbn [replace_from expand_every_LF flat_map].
  unfold matches_here. rewrite Hb. cbn [andb]. f_equal.
  apply IH.
  - intro Hin. apply HnoCR. now right.
  - cbn. apply negb_true_iff, N.eqb_neq. intro Heq.
    apply HnoCR. left. now symmetry.
Qed.

(** Scanning an output of the replacement again changes nothing, whatever
    the string: every line feed of an output follows a carriage return. *)
Lemma replace_from_idempotent (s : jsstring) (b b' : option code_unit) :
  not_after_CR b' = not_after_CR b ->
  replace_from b' (replace_from b s) = replace_from b s.
Proof.
  revert b b'. induction s as [|c s IH]; intros b b' Hb; [reflexivity|].
  cbn [replace_from].
  destruct (matches_here b c) eqn:Hm.
  - apply andb_prop in Hm as [_ Hc]. apply N.eqb_eq in Hc. subst c.
    cbn [app replace_from].
    unfold matches_here at 1 2. cbn.
    rewrite andb_false_r. cbn [app].
    do 2 f_equal. now apply IH.
  - cbn [app replace_from].
    unfold matches_here in *. rewrite Hb, Hm. cbn [app].
    f_equal. now apply IH.
Qed.

Lemma processedStr_idempotent (s : jsstring) :
  processedStr (processedStr s) = processedStr s.
Proof. now apply replace_from_idempotent. Qed.

End Replace.

(* ================================================================== *)
(** * Doubles on the safe integers *)

Section SafeIntegers.

Lemma Qred_inject_Z (z : Z) : Qred (inject_Z z) = inject_Z z.
Proof. apply Qred_identity. cbn. apply Z.gcd_1_r. Qed.

Lemma round_half_even_whole (N : Z) : round_half_even N 1 = N.
Proof.
  unfold round_half_even. rewrite Z.mod_1_r, Z.div_1_r. reflexivity.
Qed.

Lemma round_half_even_ge (N D : Z) : 0 < D -> N / D <= round_half_even N D.
Proof.
  intros _. unfold round_half_even.
  destruct (2 * (N mod D) ?= D); [destruct (Z.even (N / D))| |]; lia.
Qed.

Lemma floor_log2_whole (z : Z) : 0 < z -> floor_log2 z 1 = Z.log2 z.
Proof.
  intro H. unfold floor_log2. change (Z.log2 1) with 0. rewrite Z.sub_0_r.
  pose proof (Z.log2_nonneg z) as L.
  destruct (Z.leb_spec 0 (Z.log2 z)) as [_|]; [|lia].
  pose proof (Z.log2_spec z H) as [S _].
  destruct (Z.leb_spec (1 * 2 ^ Z.log2 z) z); [reflexivity | lia].
Qed.

(** Every integer of magnitude below 2^53 is a double. *)
Lemma round64_pos_safe (z : Z) :
  0 < z < 2 ^ 53 -> round64_pos z 1 = Finite (inject_Z z).
Proof.
  intros [Hp Hs]. unfold round64_pos. rewrite floor_log2_whole by exact Hp.
  pose proof (Z.log2_nonneg z) as L.
  assert (U : Z.log2 z < 53) by (apply Z.log2_lt_pow2; assumption).
  rewrite Z.max_l by lia.
  destruct (Z.leb_spec 0 (Z.log2 z - 52)) as [E|E].
  - assert (E0 : Z.log2 z - 52 = 0) by lia. rewrite E0.
    change (2 ^ 0) with 1. change (1 * 1) with 1.
    rewrite round_half_even_whole, Z.mul_1_r.
    destruct (Z.leb_spec (2 ^ 1024) z) as [O|_]; [|reflexivity].
    exfalso. assert (2 ^ 53 < 2 ^ 1024) by (apply Z.pow_lt_mono_r; lia). lia.
  - rewrite round_half_even_whole. f_equal.
    rewrite <- (Qred_inject_Z z). apply Qred_complete.
    unfold Qeq. cbn [Qnum Qden inject_Z].
    rewrite Z2Pos.id by (apply Z.pow_pos_nonneg; lia). lia.
Qed.

Lemma round64_safe (z : Z) :
  safe_integer z -> round64 (inject_Z z) = Finite (inject_Z z).
Proof.
  intros [Hl Hu]. unfold round64. rewrite Qred_inject_Z. cbn [Qnum Qden inject_Z].
  destruct z as [|p|p].
  - reflexivity.
  - apply round64_pos_safe. lia.
  - rewrite round64_pos_safe by lia. reflexivity.
Qed.

(** An integer from 2^53 on rounds to a double that is at least 2^53. *)
Lemma round64_large (v : Z) :
  2 ^ 53 <= v ->
  round64 (inject_Z v) = Infinity false
  \/ exists w, 2 ^ 53 <= w /\ round64 (inject_Z v) = Finite (inject_Z w).
Proof.
  intro H. assert (Hp : 0 < v) by (assert (0 < 2 ^ 53) by (apply Z.pow_pos_nonneg; lia); lia).
  unfold round64. rewrite Qred_inject_Z. cbn [Qnum Qden inject_Z].
  destruct v as [|p|p]; try lia.
  unfold round64_pos. rewrite floor_log2_whole by exact Hp.
  assert (L : 53 <= Z.log2 (Z.pos p)) by (apply Z.log2_le_pow2; assumption).
  rewrite Z.max_l by lia.
  set (e := Z.log2 (Z.pos p) - 52).
  destruct (Z.leb_spec 0 e) as [_|]; [|lia].
  destruct (Z.leb_spec (2 ^ 1024) (round_half_even (Z.pos p) (1 * 2 ^ e) * 2 ^ e));
    [now left|right].
  eexists. split; [|reflexivity].
  assert (P : 0 < 2 ^ e) by (apply Z.pow_pos_nonneg; lia).
  assert (Q2 : 2 ^ 52 <= round_half_even (Z.pos p) (1 * 2 ^ e)).
  { etransitivity; [|apply round_half_even_ge; lia].
    rewrite Z.mul_1_l. apply Z.div_le_lower_bound; [exact P|].
    rewrite <- Z.pow_add_r by lia.
    replace (e + 52) with (Z.log2 (Z.pos p)) by (unfold e; lia).
    apply Z.log2_spec. exact Hp. }
  assert (T : 2 <= 2 ^ e).
  { change 2 with (2 ^ 1) at 1. apply Z.pow_le_mono_r; unfold e; lia. }
  change (2 ^ 53) with (2 ^ 52 * 2). 
  apply Z.mul_le_mono_nonneg; lia.
Qed.

Lemma count_up_whole (z : Z) (fuel : nat) (t : Z) :
  0 <= t - 1 -> 10 ^ (t - 1) <= z -> z < 10 ^ (t + Z.of_nat fuel - 1) ->
  10 ^ (count_up fuel z 1 t - 1) <= z < 10 ^ count_up fuel z 1 t
  /\ t <= count_up fuel z 1 t.
Proof.
  revert t. induction fuel as [|f IH]; intros t Ht Hl Hu.
  - cbn in Hu. rewrite Z.add_0_r in Hu. lia.
  - cbn [count_up]. rewrite Z.mul_1_l.
    destruct (Z.ltb_spec z (10 ^ t)) as [C|C]; [lia|].
    assert (G : 10 ^ (t + 1 - 1) <= z /\ z < 10 ^ (t + 1 + Z.of_nat f - 1)).
    { split.
      - now replace (t + 1 - 1) with t by lia.
      - now replace (t + 1 + Z.of_nat f - 1) with (t + Z.of_nat (S f) - 1) by lia. }
    destruct (IH (t + 1) ltac:(lia) (proj1 G) (proj2 G)) as [A B]. split; [exact A | lia].
Qed.

Lemma digits10_whole (z : Z) :
  0 < z < 2 ^ 53 ->
  1 <= digits10 z 1 <= 16
  /\ 10 ^ (digits10 z 1 - 1) <= z < 10 ^ digits10 z 1.
Proof.
  intros [Hp Hs]. unfold digits10.
  destruct (Z.leb_spec 1 z) as [_|]; [|lia].
  assert (B : z < 10 ^ (1 + Z.of_nat 400 - 1)).
  { eapply Z.lt_trans; [exact Hs|]. apply Z.ltb_lt. vm_compute. reflexivity. }
  destruct (count_up_whole z 400 1 ltac:(lia) ltac:(cbn; lia) B) as [[A1 A2] A3].
  split; [|split; assumption]. split; [exact A3|].
  destruct (Z.le_gt_cases (count_up 400 z 1 1) 16) as [|G]; [assumption|].
  exfalso.
  assert (10 ^ 16 <= 10 ^ (count_up 400 z 1 1 - 1)) by (apply Z.pow_le_mono_r; lia).
  assert (2 ^ 53 < 10 ^ 16) by (apply Z.ltb_lt; vm_compute; reflexivity).
  lia.
Qed.

Lemma number_eqb_whole (v z : Z) :
  number_eqb (Finite (inject_Z v)) (Finite (inject_Z z)) = (v =? z).
Proof.
  cbn [number_eqb]. destruct (Z.eqb_spec v z) as [->|N].
  - apply Qeq_bool_iff. reflexivity.
  - destruct (Qeq_bool (inject_Z v) (inject_Z z)) eqn:E; [|reflexivity].
    apply Qeq_bool_iff in E. unfold Qeq in E. cbn in E. lia.
Qed.

(** Whether an integer [v] rounds to the safe integer [z]: only [z] itself
    does. *)
Lemma ok_whole (v z : Z) :
  0 <= v -> safe_integer z ->
  number_eqb (round64 (inject_Z v)) (Finite (inject_Z z)) = (v =? z).
Proof.
  intros Hv Hz. destruct (Z.lt_ge_cases v (2 ^ 53)) as [S|L].
  - rewrite round64_safe by (unfold safe_integer; lia). apply number_eqb_whole.
  - destruct (round64_large v L) as [E|(w & Hw & E)]; rewrite E.
    + cbn. symmetry. apply Z.eqb_neq. unfold safe_integer in Hz. lia.
    + rewrite number_eqb_whole. unfold safe_integer in Hz.
      destruct (Z.eqb_spec w z), (Z.eqb_spec v z); lia || reflexivity.
Qed.

Lemma shortest_whole (z : Z) (D : Z) (fuel : nat) (k : Z) :
  0 < z < 2 ^ 53 ->
  10 ^ (D - 1) <= z < 10 ^ D ->
  1 <= k <= D -> D - k < Z.of_nat fuel ->
  0 <= snd (shortest fuel (inject_Z z) D k)
  /\ fst (shortest fuel (inject_Z z) D k)
     * 10 ^ snd (shortest fuel (inject_Z z) D k) = z.
Proof.
  intros Hz HD. revert k. induction fuel as [|f IH]; intros k Hk Hf; [cbn in Hf; lia|].
  cbn [shortest Qnum Qden inject_Z].
  set (m := D - k). assert (Hm : 0 <= m) by (unfold m; lia).
  unfold scaled_floor, dec. destruct (Z.leb_spec 0 m) as [_|]; [|lia].
  rewrite Z.mul_1_l.
  assert (P : 0 < 10 ^ m) by (apply Z.pow_pos_nonneg; lia).
  set (lo := z / 10 ^ m).
  assert (Hlo : 0 <= lo) by (apply Z.div_pos; lia).
  pose proof (Z.mul_div_le z (10 ^ m) P) as Lo.
  pose proof (Z.mul_succ_div_gt z (10 ^ m) P) as Hi.
  fold lo in Lo, Hi.
  assert (Sz : safe_integer z) by (unfold safe_integer; lia).
  rewrite !ok_whole by (try exact Sz; nia).
  replace ((lo + 1) * 10 ^ m =? z) with false by (symmetry; apply Z.eqb_neq; nia).
  destruct (Z.eqb_spec (lo * 10 ^ m) z) as [E|N].
  - cbn [fst snd]. split; assumption.
  - assert (k < D).
    { destruct (Z.eq_dec k D) as [->|]; [|lia].
      exfalso. apply N. unfold lo, m. rewrite Z.sub_diag. cbn. rewrite Z.div_1_r. lia. }
    replace (D - (k + 1)) with (m - 1) by (unfold m; lia).
    specialize (IH (k + 1) ltac:(lia) ltac:(lia)).
    replace (D - (k + 1)) with (m - 1) in IH by (unfold m; lia).
    exact IH.
Qed.

Lemma strip_zeros_value (fuel : nat) (s m : Z) :
  0 <= m ->
  0 <= snd (strip_zeros fuel s m)
  /\ fst (strip_zeros fuel s m) * 10 ^ snd (strip_zeros fuel s m) = s * 10 ^ m.
Proof.
  revert s m. induction fuel as [|f IH]; intros s m Hm; [now split|].
  cbn [strip_zeros].
  destruct (Z.eqb_spec (s mod 10) 0) as [E|_]; [|now split].
  destruct (Z.ltb_spec 0 s) as [_|_]; [|now split]. cbn [andb].
  destruct (IH (s / 10) (m + 1) ltac:(lia)) as [A B]. split; [exact A|].
  rewrite B, Z.pow_add_r by lia. change (10 ^ 1) with 10.
  pose proof (Z.div_mod s 10 ltac:(lia)) as Dm. rewrite E, Z.add_0_r in Dm.
  rewrite Dm at 2. ring.
Qed.

Lemma format_whole (s m z : Z) :
  0 <= m -> s * 10 ^ m = z -> z < 2 ^ 53 -> format s m = decimal z.
Proof.
  intros Hm E Hz. unfold format.
  destruct (strip_zeros_value 400 s m Hm) as [A B].
  destruct (strip_zeros 400 s m) as [s' m']. cbn [fst snd] in A, B.
  destruct (Z.leb_spec 0 m') as [_|]; [|lia].
  rewrite B, E.
  destruct (Z.ltb_spec z (10 ^ 21)) as [_|G]; [reflexivity|].
  exfalso. assert (2 ^ 53 < 10 ^ 21) by (apply Z.ltb_lt; vm_compute; reflexivity). lia.
Qed.

Lemma toString_pos_whole (z : Z) :
  0 < z < 2 ^ 53 -> toString_pos (inject_Z z) = decimal z.
Proof.
  intro Hz. unfold toString_pos. cbn [Qnum Qden inject_Z].
  destruct (digits10_whole z Hz) as [[D1 D16] HD].
  pose proof (shortest_whole z (digits10 z 1) 17 1 Hz HD ltac:(lia) ltac:(cbn; lia))
    as [A B].
  destruct (shortest 17 (inject_Z z) (digits10 z 1) 1) as [s m].
  cbn [fst snd] in A, B. apply format_whole; [assumption | assumption | lia].
Qed.

(** On a safe integer [Number::toString] is the plain decimal numeral. *)
Lemma Number_toString_safe (z : Z) :
  safe_integer z -> Number_toString (of_Z z) = decimal z.
Proof.
  intros [Hl Hu]. unfold Number_toString, of_Z. rewrite Qred_inject_Z.
  cbn [Qnum inject_Z]. destruct z as [|p|p].
  - reflexivity.
  - apply toString_pos_whole. lia.
  - change (- inject_Z (Z.neg p))%Q with (inject_Z (Z.pos p)).
    rewrite toString_pos_whole by lia. reflexivity.
Qed.

Lemma Number_add_safe (a b : Z) :
  safe_integer (a + b) -> Number_add (of_Z a) (of_Z b) = of_Z (a + b).
Proof.
  intro H. unfold Number_add, of_Z. rewrite <- inject_Z_plus.
  now apply round64_safe.
Qed.

Lemma gt_zero_of_Z (z : Z) : gt_zero (of_Z z) = (0 <? z).
Proof.
  cbn [gt_zero of_Z]. change 0%Q with (inject_Z 0).
  destruct (Z.ltb_spec 0 z) as [H|H].
  - destruct (Qle_bool (inject_Z z) (inject_Z 0)) eqn:E; [|reflexivity].
    apply Qle_bool_iff in E. rewrite <- Zle_Qle in E. lia.
  - apply negb_false_iff, Qle_bool_iff. now rewrite <- Zle_Qle.
Qed.

Lemma lt_zero_of_Z (z : Z) : lt_zero (of_Z z) = (z <? 0).
Proof.
  cbn [lt_zero of_Z]. change 0%Q with (inject_Z 0).
  destruct (Z.ltb_spec z 0) as [H|H].
  - destruct (Qle_bool (inject_Z 0) (inject_Z z)) eqn:E; [|reflexivity].
    apply Qle_bool_iff in E. rewrite <- Zle_Qle in E. lia.
  - apply negb_false_iff, Qle_bool_iff. now rewrite <- Zle_Qle.
Qed.

Lemma Number_neg_of_Z (z : Z) : Number_neg (of_Z z) = of_Z (- z).
Proof. reflexivity. Qed.

(** Above and below 0 exclude each other, and the negation of a number
    below 0 is above 0. *)
Lemma gt_zero_not_lt_zero (n : number) : gt_zero n = true -> lt_zero n = false.
Proof.
  destruct n as [q| |[|]]; cbn; try discriminate; try reflexivity.
  intro H. apply negb_true_iff in H. apply negb_false_iff, Qle_bool_iff.
  destruct (Qlt_le_dec 0 q) as [L|L]; [now apply Qlt_le_weak|].
  apply Qle_bool_iff in L. congruence.
Qed.

Lemma lt_zero_neg_gt_zero (n : number) :
  lt_zero n = true -> gt_zero (Number_neg n) = true.
Proof.
  destruct n as [q| |[|]]; cbn; try discriminate; try reflexivity.
  intro H. apply negb_true_iff in H. apply negb_true_iff.
  destruct (Qle_bool (- q) 0) eqn:E; [|reflexivity].
  apply Qle_bool_iff in E.
  assert (L : (0 <= q)%Q).
  { apply Qopp_le_compat in E. now rewrite Qopp_involutive in E. }
  apply Qle_bool_iff in L. congruence.
Qed.

(** The three template literals on safe integers. *)
Lemma column_sequence_safe (x : Z) :
  safe_integer (x + 1) -> column_sequence (of_Z x) = seq_cursor_column x.
Proof.
  intro H. unfold column_sequence, seq_cursor_column.
  now rewrite Number_add_safe, Number_toString_safe.
Qed.

Lemma position_sequence_safe (x y : Z) :
  safe_integer (x + 1) -> safe_integer (y + 1) ->
  position_sequence (of_Z x) (of_Z y) = seq_cursor_position x y.
Proof.
  intros Hx Hy. unfold position_sequence, seq_cursor_position.
  now rewrite !Number_add_safe, !Number_toString_safe.
Qed.

Lemma move_writes_horizontal (d : Z) :
  safe_integer d -> move_writes (of_Z d) "C" "D" = horizontal_move d.
Proof.
  intro H. unfold move_writes, horizontal_move, move_sequence, seq_move.
  rewrite gt_zero_of_Z, lt_zero_of_Z, Number_neg_of_Z, Z.gtb_ltb.
  destruct (Z.ltb_spec 0 d), (Z.ltb_spec d 0); try lia.
  - now rewrite Number_toString_safe.
  - rewrite Number_toString_safe by (unfold safe_integer in *; lia).
    now rewrite Z.abs_neq by lia.
  - reflexivity.
Qed.

Lemma move_writes_vertical (d : Z) :
  safe_integer d -> move_writes (of_Z d) "B" "A" = vertical_move d.
Proof.
  intro H. unfold move_writes, vertical_move, move_sequence, seq_move.
  rewrite gt_zero_of_Z, lt_zero_of_Z, Number_neg_of_Z, Z.gtb_ltb.
  destruct (Z.ltb_spec 0 d), (Z.ltb_spec d 0); try lia.
  - now rewrite Number_toString_safe.
  - rewrite Number_toString_safe by (unfold safe_integer in *; lia).
    now rewrite Z.abs_neq by lia.
  - reflexivity.
Qed.

End SafeIntegers.

(* ================================================================== *)
(** * What each method does to a state *)

Ltac run :=
  unfold exec, result, write, end_, getWindowSize, clearLine, clearScreenDown,
    cursorTo, moveCursor, updateDimensions, emit, on, call_if_given, call,
    term_write, log, modify, gets, bind, ret;
  cbn.

Section Runs.

Variable s : State.

Lemma write_run str enc cb :
  write str enc cb s =
  (true, mkState (heap s)
           (trace s ++ TermWrite (processedStr str) :: completion cb (heap s))).
Proof. destruct cb; run; now rewrite <- ?app_assoc. Qed.

Lemma clearScreenDown_run cb :
  clearScreenDown cb s =
  (true, mkState (heap s)
           (trace s ++ TermWrite (esc "[J") :: completion cb (heap s))).
Proof. destruct cb; run; now rewrite <- ?app_assoc. Qed.

Lemma clearLine_run dir cb :
  clearLine dir cb s =
  (true, mkState (heap s)
           (trace s ++ TermWrite (seq_erase_line dir) :: completion cb (heap s))).
Proof.
  assert (E : forall tr d,
    (if strict_eq_number dir (-1) then term_write (esc "[1K")
     else if strict_eq_number dir 1 then term_write (esc "[0K")
     else term_write (esc "[2K")) (mkState (heap s) tr) = (tt, d) ->
    d = mkState (heap s) (tr ++ [TermWrite (seq_erase_line dir)])).
  { intros tr d.
    destruct dir as [ | |b|n|t|f]; cbn; try (intros [= <-]; reflexivity).
    destruct n as [|[p|p|]|[p|p|]]; cbn; intros [= <-]; reflexivity. }
  unfold clearLine, bind.
  destruct ((if strict_eq_number dir (-1) then term_write (esc "[1K")
     else if strict_eq_number dir 1 then term_write (esc "[0K")
     else term_write (esc "[2K")) s) as [[] d] eqn:Hd.
  destruct s as [h tr]. apply E in Hd. subst d.
  destruct cb; run; now rewrite <- ?app_assoc.
Qed.

Lemma cursorTo_column_run x cb :
  cursorTo x Undefined cb s =
  (true, mkState (heap s)
           (trace s ++ TermWrite (column_sequence x) :: completion cb (heap s))).
Proof. destruct cb; run; now rewrite <- ?app_assoc. Qed.

Lemma cursorTo_callback_run x f cb :
  cursorTo x (Function f) cb s =
  (true, mkState (heap s)
           (trace s ++ [TermWrite (column_sequence x); Call f [] (heap s)])).
Proof. run; now rewrite <- ?app_assoc. Qed.

Lemma cursorTo_position_run x y cb :
  cursorTo x (Number y) cb s =
  (true, mkState (heap s)
           (trace s ++ TermWrite (position_sequence x y)
              :: completion cb (heap s))).
Proof. destruct cb; run; now rewrite <- ?app_assoc. Qed.

Lemma moveCursor_run dx dy cb :
  moveCursor dx dy cb s =
  (true, mkState (heap s)
           (trace s
              ++ map TermWrite (move_writes dx "C" "D" ++ move_writes dy "B" "A")
              ++ completion cb (heap s))).
Proof.
  unfold move_writes, move_sequence, moveCursor.
  destruct (gt_zero dx), (lt_zero dx), (gt_zero dy), (lt_zero dy), cb;
    run; rewrite <- ?app_assoc; cbn [app]; rewrite ?app_nil_r;
    destruct s; reflexivity.
Qed.

Lemma end_truthy_run c str cb :
  end_ (Some (c :: str)) cb s =
  (Stdout, snd (write (c :: str) None cb s)).
Proof. destruct cb; reflexivity. Qed.

Lemma end_falsy_run chunk cb :
  truthy_string chunk = false -> end_ chunk cb s = (Stdout, s).
Proof. destruct chunk as [[|c str]|]; [reflexivity|discriminate|reflexivity]. Qed.

Lemma getWindowSize_run :
  getWindowSize s =
  ((TerminalWritableStream.columns (stdout (heap s)),
    TerminalWritableStream.rows (stdout (heap s))), s).
Proof. reflexivity. Qed.

End Runs.

Section Notifications.

Lemma for_each_call ls args s :
  for_each ls (fun l => call l args) s =
  (tt, mkState (heap s) (trace s ++ map (fun l => Call l args (heap s)) ls)).
Proof.
  revert s. induction ls as [|l ls IH]; intros [h tr].
  - cbn. now rewrite app_nil_r.
  - cbn [for_each]. unfold bind at 1. unfold call at 1. run.
    rewrite IH. cbn. now rewrite <- app_assoc.
Qed.

Lemma emit_run this eventName args s :
  exec (emit this eventName args) s =
  mkState (heap s) (trace s ++ publication this eventName args (heap s)).
Proof.
  destruct s as [h tr]. unfold exec, emit, bind, log, gets, ret. cbn.
  rewrite for_each_call. cbn. unfold publication. now rewrite <- app_assoc.
Qed.

Lemma updateDimensions_run s :
  updateDimensions s =
  (tt, mkState (synced (heap s))
         (trace s ++ publication Stdout "resize" [] (synced (heap s)))).
Proof.
  destruct s as [h tr].
  unfold updateDimensions. unfold bind at 1 2 3 4. unfold gets, modify. cbn.
  unfold bind.
  match goal with
  | |- context [emit ?a ?b ?c ?st] =>
      pose proof (emit_run a b c st) as E;
      unfold exec in E; destruct (emit a b c st) as [r st'];
      cbn in E; subst st'
  end.
  reflexivity.
Qed.

Lemma run_data_listener_run data l s :
  run_data_listener data l s =
  (tt, mkState (heap s) (trace s ++ data_events data (heap s) l)).
Proof.
  destruct l as [|f]; cbn [run_data_listener data_events].
  - unfold bind.
    pose proof (emit_run Stdin "data" [VString data] s) as E.
    unfold exec in E. destruct (emit Stdin "data" [VString data] s) as [r st'].
    cbn in E. now subst st'.
  - destruct s; reflexivity.
Qed.

Lemma for_each_listener data ls s :
  for_each ls (run_data_listener data) s =
  (tt, mkState (heap s) (trace s ++ flat_map (data_events data (heap s)) ls)).
Proof.
  revert s. induction ls as [|l ls IH]; intros s.
  - destruct s. cbn. now rewrite app_nil_r.
  - cbn [for_each flat_map]. unfold bind.
    rewrite run_data_listener_run, IH. cbn. now rewrite <- app_assoc.
Qed.

Lemma Terminal_input_run data s :
  Terminal_input data s =
  (tt, mkState (heap s) (trace s ++ input_events (heap s) data)).
Proof.
  unfold Terminal_input, bind, gets. cbn. apply for_each_listener.
Qed.

Lemma Terminal_inputs_run chunks s :
  Terminal_inputs chunks s =
  (tt, mkState (heap s) (trace s ++ flat_map (input_events (heap s)) chunks)).
Proof.
  unfold Terminal_inputs.
  revert s. induction chunks as [|c chunks IH]; intros s.
  - destruct s. cbn. now rewrite app_nil_r.
  - cbn [for_each flat_map]. unfold bind.
    rewrite Terminal_input_run, IH. cbn. now rewrite <- app_assoc.
Qed.

Lemma written_app tr tr' : written (tr ++ tr') = written tr ++ written tr'.
Proof. apply flat_map_app. Qed.

Lemma emitted_app src tr tr' :
  emitted src (tr ++ tr') = emitted src tr ++ emitted src tr'.
Proof. apply flat_map_app. Qed.

Lemma written_completion cb h : written (completion cb h) = [].
Proof. now destruct cb. Qed.

Lemma emitted_calls src args h ls :
  emitted src (map (fun l => Call l args h) ls) = [].
Proof. induction ls; [reflexivity | assumption]. Qed.

Lemma emitted_publication src eventName args h :
  emitted src (publication src eventName args h) = [(eventName, args)].
Proof.
  unfold publication.
  change (Emit src eventName args h :: ?l)
  with ([Emit src eventName args h] ++ l).
  rewrite emitted_app, emitted_calls. now destruct src.
Qed.

Lemma emitted_input_events h data :
  emitted Stdin (input_events h data) =
  repeat ("data"%string, [VString data]) (forwarders (term h)).
Proof.
  unfold input_events, forwarders.
  induction (Terminal.onData (term h)) as [|l ls IH]; [reflexivity|].
  cbn [flat_map filter]. rewrite emitted_app, IH.
  destruct l; cbn [data_events is_forward].
  - now rewrite emitted_publication.
  - reflexivity.
Qed.

End Notifications.

(* ================================================================== *)
(** * The output adapter: what reaches the terminal *)

(** C1. For every input string, [write] calls the terminal's [write] once,
    with the input in which each line feed not immediately preceded by a
    carriage return is replaced by carriage return + line feed and every
    other code unit is unchanged; then it runs the completion callback, if
    any, and returns [true].  In particular "a\nb\r\nc\n" is forwarded as
    "a\r\nb\r\nc\r\n" and the empty string as the empty string. *)
Theorem write_forwards_normalized_input :
  (forall str enc cb s,
     write str enc cb s =
     (true, mkState (heap s)
              (trace s ++ TermWrite (normalize str) :: completion cb (heap s))))
  /\ (forall enc cb s,
        written (trace (exec
          (write (lit "a" ++ [LF] ++ lit "b" ++ [CR; LF] ++ lit "c" ++ [LF])
                 enc cb) s))
        = written (trace s)
            ++ [lit "a" ++ [CR; LF] ++ lit "b" ++ [CR; LF] ++ lit "c" ++ [CR; LF]])
  /\ (forall enc cb s,
        written (trace (exec (write [] enc cb) s)) = written (trace s) ++ [[]]).
Proof.
  split; [|split]; intros.
  - rewrite write_run. now rewrite processedStr_normalize.
  - unfold exec. rewrite write_run. cbn [snd trace].
    rewrite written_app. cbn [written flat_map].
    now rewrite written_completion.
  - unfold exec. rewrite write_run. cbn [snd trace].
    rewrite written_app. cbn [written flat_map].
    now rewrite written_completion.
Qed.

(** C8. On a string without carriage returns the replacement applied by
    [write] expands every line feed to carriage return + line feed, and
    applying it to its own output changes nothing. *)
Theorem normalization_without_carriage_returns :
  forall s : jsstring,
    ~ In CR s ->
    processedStr s = expand_every_LF s
    /\ processedStr (processedStr s) = processedStr s.
Proof.
  intros s H. split.
  - now apply replace_from_no_CR.
  - apply processedStr_idempotent.
Qed.

Lemma normalization_without_carriage_returns_witness :
  ~ In CR (lit "a" ++ [LF] ++ lit "b" ++ [LF])
  /\ processedStr (lit "a" ++ [LF] ++ lit "b" ++ [LF])
     = lit "a" ++ [CR; LF] ++ lit "b" ++ [CR; LF]
  /\ processedStr (processedStr (lit "a" ++ [LF] ++ lit "b" ++ [LF]))
     = processedStr (lit "a" ++ [LF] ++ lit "b" ++ [LF]).
Proof.
  assert (H : ~ In CR (lit "a" ++ [LF] ++ lit "b" ++ [LF])).
  { cbn. intros [E|[E|[E|[E|[]]]]]; discriminate E. }
  split; [exact H|].
  exact (normalization_without_carriage_returns _ H).
Defined.

(** C10. When the input ends in a carriage return, [write] forwards what it
    forwards for the text before it, followed by that one carriage return:
    the carriage return is neither dropped nor doubled, and no line feed is
    put after it. *)
Theorem write_keeps_trailing_carriage_return :
  forall (p : jsstring) enc cb s,
    written (trace (exec (write (p ++ [CR]) enc cb) s))
    = written (trace s) ++ [processedStr p ++ [CR]].
Proof.
  intros. unfold exec. rewrite write_run. cbn [snd trace].
  rewrite written_app. cbn [written flat_map].
  rewrite written_completion. cbn [app].
  unfold processedStr. now rewrite replace_from_app, replace_from_CR.
Qed.

(** C3 (amended). For every integer [x] whose successor [x + 1] is a safe
    integer (magnitude at most 2^53 - 1), [cursorTo(x)] and
    [cursorTo(x, callback)] forward ESC [ (x+1) G with x+1 in plain decimal,
    the second form recognising the function by its type and running it as
    the completion callback; for such [x] and every integer [y] with [y + 1]
    safe, [cursorTo(x, y)] forwards ESC [ (y+1) ; (x+1) H.  All return
    [true].  For any number at all the sequence carries JavaScript's
    rendering of the double sums [x + 1] and [y + 1]. *)
Theorem cursorTo_sequences :
  (forall x cb s,
     safe_integer (x + 1) ->
     cursorTo (of_Z x) Undefined cb s =
     (true, mkState (heap s)
              (trace s ++ TermWrite (seq_cursor_column x)
                 :: completion cb (heap s))))
  /\ (forall x f cb s,
        safe_integer (x + 1) ->
        cursorTo (of_Z x) (Function f) cb s =
        (true, mkState (heap s)
                 (trace s ++ TermWrite (seq_cursor_column x)
                    :: completion (Some f) (heap s))))
  /\ (forall x y cb s,
        safe_integer (x + 1) -> safe_integer (y + 1) ->
        cursorTo (of_Z x) (Number (of_Z y)) cb s =
        (true, mkState (heap s)
                 (trace s ++ TermWrite (seq_cursor_position x y)
                    :: completion cb (heap s))))
  /\ (forall (x : number) (y : number_or_callback) cb s,
        cursorTo x y cb s =
        (true, mkState (heap s)
                 (trace s
                    ++ TermWrite
                         match y with
                         | Number y' => position_sequence x y'
                         | _ => column_sequence x
                         end
                    :: completion
                         match y with
                         | Function f => Some f
                         | _ => cb
                         end (heap s)))).
Proof.
  split; [|split; [|split]]; intros.
  - rewrite cursorTo_column_run. now rewrite column_sequence_safe.
  - rewrite cursorTo_callback_run. now rewrite column_sequence_safe.
  - rewrite cursorTo_position_run. now rewrite position_sequence_safe.
  - destruct y.
    + apply cursorTo_column_run.
    + apply cursorTo_position_run.
    + apply cursorTo_callback_run.
Qed.

Lemma cursorTo_sequences_witness :
  safe_integer (5 + 1) /\ safe_integer (3 + 1)
  /\ cursorTo (of_Z 5) (Number (of_Z 3)) None fresh =
     (true, mkState (heap fresh)
              (trace fresh ++ [TermWrite (seq_cursor_position 5 3)])).
Proof.
  assert (H5 : safe_integer (5 + 1)) by (split; reflexivity).
  assert (H3 : safe_integer (3 + 1)) by (split; reflexivity).
  split; [exact H5|]. split; [exact H3|].
  exact (proj1 (proj2 (proj2 cursorTo_sequences)) 5 3 None fresh H5 H3).
Defined.

(** C3 as first stated, for every integer [x], fails at x = 2^53: there
    [x + 1] is not a double, the sum rounds back to 2^53, and the column
    written is 9007199254740992 where x + 1 is 9007199254740993. *)
Lemma cursorTo_beyond_safe_integers :
  written (trace (exec (cursorTo (of_Z 9007199254740992) Undefined None) fresh))
    = [[ESC] ++ lit "[9007199254740992G"]
  /\ written (trace (exec (cursorTo (of_Z 9007199254740992) Undefined None) fresh))
     <> [seq_cursor_column 9007199254740992].
Proof.
  split.
  - vm_compute. reflexivity.
  - intro H. vm_compute in H. discriminate H.
Qed.

(** C4 (amended). For all safe integers [deltaX] and [deltaY] (magnitude at
    most 2^53 - 1), [moveCursor(deltaX, deltaY)] forwards the horizontal
    sequence (right for a positive [deltaX], left by [|deltaX|] for a
    negative one, nothing for 0), then the vertical one (down, up by
    [|deltaY|], nothing), each with its own [term.write] and its count in
    plain decimal, then runs the callback and returns [true];
    [moveCursor(0, 0)] forwards nothing.  For any numbers at all each
    sequence carries JavaScript's rendering of the delta or of its
    negation. *)
Theorem moveCursor_sequences :
  (forall deltaX deltaY cb s,
     safe_integer deltaX -> safe_integer deltaY ->
     moveCursor (of_Z deltaX) (of_Z deltaY) cb s =
     (true, mkState (heap s)
              (trace s
                 ++ map TermWrite (horizontal_move deltaX ++ vertical_move deltaY)
                 ++ completion cb (heap s))))
  /\ (forall cb s,
        written (trace (exec (moveCursor (of_Z 0) (of_Z 0) cb) s))
        = written (trace s))
  /\ (forall (dx dy : number) cb s,
        moveCursor dx dy cb s =
        (true, mkState (heap s)
                 (trace s
                    ++ map TermWrite
                         (move_writes dx "C" "D" ++ move_writes dy "B" "A")
                    ++ completion cb (heap s)))).
Proof.
  split; [|split]; intros.
  - rewrite moveCursor_run.
    now rewrite move_writes_horizontal, move_writes_vertical.
  - unfold exec. rewrite moveCursor_run. cbn [snd trace].
    rewrite written_app.
    change (move_writes (of_Z 0) "C" "D" ++ move_writes (of_Z 0) "B" "A")
      with (@nil jsstring).
    cbn [map app]. now rewrite written_completion, app_nil_r.
  - apply moveCursor_run.
Qed.

Lemma moveCursor_sequences_witness :
  safe_integer 3 /\ safe_integer (-2)
  /\ moveCursor (of_Z 3) (of_Z (-2)) None fresh =
     (true, mkState (heap fresh)
              (trace fresh
                 ++ map TermWrite (horizontal_move 3 ++ vertical_move (-2))
                 ++ [])).
Proof.
  assert (H3 : safe_integer 3) by (split; reflexivity).
  assert (H2 : safe_integer (-2)) by (split; reflexivity).
  split; [exact H3|]. split; [exact H2|].
  exact (proj1 moveCursor_sequences 3 (-2) None fresh H3 H2).
Defined.

(** C4 as first stated, for all integers, fails at deltaX = 10^21 (a
    double): JavaScript prints it in exponent notation, so the sequence
    written is ESC [1e+21C and not ESC [ followed by the 22 digits. *)
Lemma moveCursor_beyond_safe_integers :
  written (trace (exec (moveCursor (of_Z (10 ^ 21)) (of_Z 0) None) fresh))
    = [[ESC] ++ lit "[1e+21C"]
  /\ written (trace (exec (moveCursor (of_Z (10 ^ 21)) (of_Z 0) None) fresh))
     <> horizontal_move (10 ^ 21) ++ vertical_move 0.
Proof.
  split.
  - vm_compute. reflexivity.
  - intro H. vm_compute in H. discriminate H.
Qed.

(** C5. Whatever [direction] is, [clearLine(direction)] forwards exactly one
    sequence and returns [true]: ESC [1K for -1, ESC [0K for 1, ESC [2K for
    anything else (0, another number, a value that is not a number). *)
Theorem clearLine_sequences :
  forall (direction : value) cb s,
    clearLine direction cb s =
    (true, mkState (heap s)
             (trace s ++ TermWrite (seq_erase_line direction)
                :: completion cb (heap s))).
Proof. intros. apply clearLine_run. Qed.

(** C9 (evaluated where it fails). [end("", callback)] is given a final
    text, yet nothing reaches the terminal and [callback] is not run: the
    state is untouched.  [write("", undefined, callback)], to which the call
    should have delegated, forwards the empty string and runs [callback]. *)
Theorem end_with_empty_text_skips_write :
  forall (f : callback) (s : State),
    end_ (Some []) (Some f) s = (Stdout, s)
    /\ write [] None (Some f) s =
       (true, mkState (heap s)
                (trace s ++ [TermWrite []; Call f [] (heap s)])).
Proof.
  intros f s. split.
  - now apply end_falsy_run.
  - now rewrite write_run.
Qed.

(** For a final text that is not empty, [end] is [write] and returns the
    stream. *)
Lemma end_delegates_to_write :
  forall c str cb s,
    end_ (Some (c :: str)) cb s =
    (Stdout, mkState (heap s)
               (trace s ++ TermWrite (normalize (c :: str))
                  :: completion cb (heap s))).
Proof.
  intros. rewrite end_truthy_run, write_run. cbn [snd].
  now rewrite processedStr_normalize.
Qed.

(** Without a final text [end] does nothing, callback or not, and returns
    the stream. *)
Lemma end_without_text_is_noop :
  forall cb s, end_ None cb s = (Stdout, s).
Proof. intros. now apply end_falsy_run. Qed.

(* ================================================================== *)
(** * The output adapter: cached dimensions *)

(** C6. A new stream has the terminal's size of that moment.  Each
    [updateDimensions()] leaves [columns] and [rows] equal to the terminal's
    current [cols] and [rows] and publishes "resize" exactly once, without
    payload; the publication, and so every subscriber called by it, finds
    the heap in which the sizes are already overwritten. *)
Theorem dimensions_follow_terminal :
  (forall t,
     TerminalWritableStream.columns (new_TerminalWritableStream t)
       = Terminal.cols t
     /\ TerminalWritableStream.rows (new_TerminalWritableStream t)
       = Terminal.rows t)
  /\ (forall s,
        TerminalWritableStream.columns (stdout (heap (exec updateDimensions s)))
          = Terminal.cols (term (heap s))
        /\ TerminalWritableStream.rows (stdout (heap (exec updateDimensions s)))
          = Terminal.rows (term (heap s))
        /\ term (heap (exec updateDimensions s)) = term (heap s)
        /\ emitted Stdout (trace (exec updateDimensions s))
          = emitted Stdout (trace s) ++ [("resize"%string, [])]
        /\ trace (exec updateDimensions s)
          = trace s ++ publication Stdout "resize" []
                         (heap (exec updateDimensions s))).
Proof.
  split.
  - intro t. split; reflexivity.
  - intro s. unfold exec. rewrite updateDimensions_run. cbn [snd heap trace].
    repeat split.
    now rewrite emitted_app, emitted_publication.
Qed.

(** C7. [write], [end], [getWindowSize], [clearLine], [clearScreenDown],
    [cursorTo] and [moveCursor] leave the stream object as it was, whatever
    their arguments: [columns], [rows], [isTTY] and [writable] keep their
    values (and so do the subscriptions).  Only [updateDimensions] assigns
    the two sizes. *)
Theorem only_updateDimensions_changes_dimensions :
  forall s : State,
    (forall str enc cb, stdout (heap (exec (write str enc cb) s)) = stdout (heap s))
    /\ (forall chunk cb, stdout (heap (exec (end_ chunk cb) s)) = stdout (heap s))
    /\ stdout (heap (exec getWindowSize s)) = stdout (heap s)
    /\ (forall dir cb, stdout (heap (exec (clearLine dir cb) s)) = stdout (heap s))
    /\ (forall cb, stdout (heap (exec (clearScreenDown cb) s)) = stdout (heap s))
    /\ (forall x y cb, stdout (heap (exec (cursorTo x y cb) s)) = stdout (heap s))
    /\ (forall dx dy cb, stdout (heap (exec (moveCursor dx dy cb) s)) = stdout (heap s)).
Proof.
  intro s. unfold exec. repeat split; intros.
  - now rewrite write_run.
  - destruct chunk as [[|c str]|].
    + now rewrite end_falsy_run.
    + now rewrite end_truthy_run, write_run.
    + now rewrite end_falsy_run.
  - now rewrite clearLine_run.
  - now rewrite clearScreenDown_run.
  - destruct y.
    + now rewrite cursorTo_column_run.
    + now rewrite cursorTo_position_run.
    + now rewrite cursorTo_callback_run.
  - now rewrite moveCursor_run.
Qed.

(** The two flags are [true] from construction on and [updateDimensions]
    does not touch them. *)
Lemma flags_constant :
  (forall t,
     TerminalWritableStream.isTTY (new_TerminalWritableStream t) = true
     /\ TerminalWritableStream.writable (new_TerminalWritableStream t) = true)
  /\ (forall s,
        TerminalWritableStream.isTTY (stdout (heap (exec updateDimensions s)))
          = TerminalWritableStream.isTTY (stdout (heap s))
        /\ TerminalWritableStream.writable (stdout (heap (exec updateDimensions s)))
          = TerminalWritableStream.writable (stdout (heap s))).
Proof.
  split; [now split|].
  intro s. unfold exec. now rewrite updateDimensions_run.
Qed.

(* ================================================================== *)
(** * The input adapter *)

(** Mounting on a terminal that holds no forwarding subscription leaves it
    with exactly one. *)
Lemma mount_subscribes_once :
  forall t, forwarders t = 0%nat -> forwarders (term (heap (mount t))) = 1%nat.
Proof.
  intros [c r ls] H. unfold forwarders in *. cbn in *.
  rewrite filter_app, length_app, H. reflexivity.
Qed.

(** C2. Once the stream has been constructed on the terminal, a sequence of
    chunks reported by the terminal makes the stream publish "data" once per
    chunk, with that chunk as the payload, in the order of arrival: the
    stream's publications grow by exactly that list.  Everything happens
    inside the terminal's report of the chunk (the trace of the sequence is
    the chunks' traces one after the other) and nothing is kept in the
    heap. *)
Theorem stdin_publishes_each_chunk_once :
  forall (chunks : list jsstring) (s : State),
    forwarders (term (heap s)) = 1%nat ->
    emitted Stdin (trace (exec (Terminal_inputs chunks) s))
      = emitted Stdin (trace s)
          ++ map (fun c => ("data"%string, [VString c])) chunks
    /\ List.length (emitted Stdin (trace (exec (Terminal_inputs chunks) s)))
      = (List.length (emitted Stdin (trace s)) + List.length chunks)%nat
    /\ trace (exec (Terminal_inputs chunks) s)
      = trace s ++ flat_map (input_events (heap s)) chunks
    /\ heap (exec (Terminal_inputs chunks) s) = heap s.
Proof.
  intros chunks s H.
  assert (E : emitted Stdin (trace (exec (Terminal_inputs chunks) s))
      = emitted Stdin (trace s)
          ++ map (fun c => ("data"%string, [VString c])) chunks).
  { unfold exec. rewrite Terminal_inputs_run. cbn [snd trace].
    rewrite emitted_app. f_equal.
    induction chunks as [|c chunks IH]; [reflexivity|].
    cbn [flat_map map]. rewrite emitted_app, IH, emitted_input_events, H.
    reflexivity. }
  split; [exact E|]. split.
  - now rewrite E, length_app, length_map.
  - unfold exec. now rewrite Terminal_inputs_run.
Qed.

Lemma stdin_publishes_each_chunk_once_witness :
  forwarders (term (heap (mount (Terminal.mk 80 24 [])))) = 1%nat
  /\ emitted Stdin
       (trace (exec (Terminal_inputs [lit "a"; lit "b"; lit "c"])
                 (mount (Terminal.mk 80 24 []))))
     = [("data"%string, [VString (lit "a")]);
        ("data"%string, [VString (lit "b")]);
        ("data"%string, [VString (lit "c")])].
Proof.
  split; [reflexivity|].
  exact (proj1 (stdin_publishes_each_chunk_once
                  [lit "a"; lit "b"; lit "c"]
                  (mount (Terminal.mk 80 24 [])) eq_refl)).
Defined.

(** When the stream is the terminal's only subscriber, each chunk gives one
    publication followed by one call per "data" subscriber, carrying the
    chunk. *)
Lemma stdin_delivers_to_subscribers :
  forall chunks s,
    Terminal.onData (term (heap s)) = [Terminal.ForwardToStdin] ->
    trace (exec (Terminal_inputs chunks) s)
    = trace s
        ++ flat_map
             (fun c =>
                Emit Stdin "data" [VString c] (heap s)
                  :: map (fun l => Call l [VString c] (heap s))
                       (EventEmitter.listeners "data"
                          (TerminalReadableStream.events (stdin (heap s)))))
             chunks.
Proof.
  intros chunks s H. unfold exec. rewrite Terminal_inputs_run. cbn [snd trace].
  f_equal. apply flat_map_ext. intro c.
  unfold input_events. rewrite H. cbn. now rewrite app_nil_r.
Qed.

(** [read] always answers [null], also after input; [setRawMode] records
    its argument and returns the stream. *)
Lemma read_always_null :
  forall size chunks s,
    result (read size) (exec (Terminal_inputs chunks) s) = None.
Proof. reflexivity. Qed.

Lemma setRawMode_records :
  forall mode s,
    result (setRawMode mode) s = Stdin
    /\ TerminalReadableStream.isRaw (stdin (heap (exec (setRawMode mode) s))) = mode.
Proof. intros. now split. Qed.

(* ================================================================== *)
(** * The scenarios of the test suite *)

Example normalize_only_newlines :
  normalize [LF; LF; LF] = [CR; LF; CR; LF; CR; LF].
Proof. reflexivity. Qed.

Example write_preserves_CRLF :
  written (trace (exec (write (lit "line1" ++ [CR; LF] ++ lit "line2" ++ [CR; LF])
                          None None) fresh))
  = [lit "line1" ++ [CR; LF] ++ lit "line2" ++ [CR; LF]].
Proof. reflexivity. Qed.

Example write_runs_callback_after_forwarding :
  trace (exec (write (lit "test") (Some (lit "utf-8")) (Some 7%nat)) fresh)
  = [TermWrite (lit "test"); Call 7%nat [] (heap fresh)].
Proof. reflexivity. Qed.

Example cursorTo_5_3 :
  written (trace (exec (cursorTo (of_Z 5) (Number (of_Z 3)) None) fresh))
  = [[27; 91; 52; 59; 54; 72]%N].          (* "\x1b[4;6H" *)
Proof. reflexivity. Qed.

Example cursorTo_10 :
  written (trace (exec (cursorTo (of_Z 10) Undefined None) fresh))
  = [[27; 91; 49; 49; 71]%N].              (* "\x1b[11G" *)
Proof. reflexivity. Qed.

Example cursorTo_0_0 :
  written (trace (exec (cursorTo (of_Z 0) (Number (of_Z 0)) None) fresh))
  = [[27; 91; 49; 59; 49; 72]%N].          (* "\x1b[1;1H" *)
Proof. reflexivity. Qed.

Example cursorTo_5_callback :
  trace (exec (cursorTo (of_Z 5) (Function 7%nat) None) fresh)
  = [TermWrite [27; 91; 54; 71]%N; Call 7%nat [] (heap fresh)].   (* "\x1b[6G" *)
Proof. reflexivity. Qed.

Example moveCursor_3_2 :
  written (trace (exec (moveCursor (of_Z 3) (of_Z 2) None) fresh))
  = [[27; 91; 51; 67]%N; [27; 91; 50; 66]%N].   (* "\x1b[3C", "\x1b[2B" *)
Proof. reflexivity. Qed.

Example moveCursor_minus2_minus1 :
  written (trace (exec (moveCursor (of_Z (-2)) (of_Z (-1)) None) fresh))
  = [[27; 91; 50; 68]%N; [27; 91; 49; 65]%N].   (* "\x1b[2D", "\x1b[1A" *)
Proof. reflexivity. Qed.

Example clearLine_directions :
  written (trace (exec (clearLine (VNumber (-1)) None) fresh)) = [[27; 91; 49; 75]%N]
  /\ written (trace (exec (clearLine (VNumber 1) None) fresh)) = [[27; 91; 48; 75]%N]
  /\ written (trace (exec (clearLine (VNumber 0) None) fresh)) = [[27; 91; 50; 75]%N]
  /\ written (trace (exec (clearLine (VNumber 42) None) fresh)) = [[27; 91; 50; 75]%N]
  /\ written (trace (exec (clearLine VUndefined None) fresh)) = [[27; 91; 50; 75]%N].
Proof. repeat split. Qed.

Example clearScreenDown_sequence :
  written (trace (exec (clearScreenDown None) fresh)) = [[27; 91; 74]%N].  (* "\x1b[J" *)
Proof. reflexivity. Qed.

Example end_final :
  result (end_ (Some (lit "final")) None) fresh = Stdout
  /\ written (trace (exec (end_ (Some (lit "final")) None) fresh)) = [lit "final"].
Proof. now split. Qed.

(** [Number::toString] and [+] on doubles, against what a JavaScript engine
    prints: [0.1 + 0.2], [2**53 + 1], [2**60], [1e21], [1e-7], [3.5], [-2.55],
    [123456789012345680000], the largest double, the smallest one, and an
    overflowing sum. *)
Example doubles_print_as_in_JavaScript :
  Number_toString (Number_add (round64 (1 # 10)) (round64 (2 # 10)))
    = lit "0.30000000000000004"
  /\ Number_toString (Number_add (of_Z (2 ^ 53)) (of_Z 1)) = lit "9007199254740992"
  /\ Number_toString (of_Z (2 ^ 60)) = lit "1152921504606847000"
  /\ Number_toString (of_Z (10 ^ 21)) = lit "1e+21"
  /\ Number_toString (round64 (1 # 10000000)) = lit "1e-7"
  /\ Number_toString (round64 (1 # 1000000)) = lit "0.000001"
  /\ Number_toString (round64 (7 # 2)) = lit "3.5"
  /\ Number_toString (round64 (-255 # 100)) = lit "-2.55"
  /\ Number_toString (round64 (inject_Z 123456789012345680000))
     = lit "123456789012345680000"
  /\ Number_toString (of_Z ((2 ^ 53 - 1) * 2 ^ 971))
     = lit "1.7976931348623157e+308"
  /\ Number_toString (round64 (1 # Z.to_pos (2 ^ 1074))) = lit "5e-324"
  /\ Number_toString
       (Number_add (of_Z ((2 ^ 53 - 1) * 2 ^ 971)) (of_Z ((2 ^ 53 - 1) * 2 ^ 971)))
     = lit "Infinity"
  /\ Number_toString NaN = lit "NaN".
Proof. vm_compute. repeat split. Qed.

Example cursorTo_fraction_and_NaN :
  written (trace (exec (cursorTo (of_Z 5) (Number (round64 (5 # 2))) None) fresh))
    = [[ESC] ++ lit "[3.5;6H"]
  /\ written (trace (exec (cursorTo (of_Z 5) (Number NaN) None) fresh))
    = [[ESC] ++ lit "[NaN;6H"]
  /\ written (trace (exec (moveCursor (round64 (1 # 10000000)) NaN None) fresh))
    = [[ESC] ++ lit "[1e-7C"].
Proof. vm_compute. repeat split. Qed.

Example resize_is_clamped :
  result getWindowSize (exec (Terminal_resize 1 0 ;; updateDimensions) fresh)
  = (2, 1).
Proof. reflexivity. Qed.

(** [terminal.resize(120, 40); stdout.updateDimensions()] with one "resize"
    subscriber: the subscriber is called once and finds the new size. *)
Example resize_then_updateDimensions :
  let s1 := exec (on Stdout "resize" 7%nat) fresh in
  let s2 := exec (Terminal_resize 120 40 ;; updateDimensions) s1 in
  result getWindowSize s1 = (80, 24)
  /\ result getWindowSize s2 = (120, 40)
  /\ trace s2 = [Emit Stdout "resize" [] (heap s2); Call 7%nat [] (heap s2)].
Proof. repeat split. Qed.

Example input_reaches_data_subscriber :
  let s1 := exec (on Stdin "data" 7%nat) fresh in
  calls_of 7%nat (trace (exec (Terminal_inputs [lit "a"; lit "b"; lit "c"]) s1))
  = [[VString (lit "a")]; [VString (lit "b")]; [VString (lit "c")]].
Proof. reflexivity. Qed.

(* ================================================================== *)
(** * More on the line-ending replacement of [write] *)

Section ReplaceMore.

(** What [replace_from] does depends on [before] only through the test at
    the first code unit. *)
Lemma replace_from_before (b b' : option code_unit) (q : jsstring) :
  (forall c, hd_error q = Some c -> matches_here b c = matches_here b' c) ->
  replace_from b q = replace_from b' q.
Proof.
  destruct q as [|c q]; [reflexivity|].
  intro H. cbn [replace_from]. now rewrite (H c eq_refl).
Qed.

Lemma strip_CR_replace_from (s : jsstring) (b : option code_unit) :
  strip_CR (replace_from b s) = strip_CR s.
Proof.
  revert b. induction s as [|c s IH]; intro b; [reflexivity|].
  cbn [replace_from]. unfold strip_CR in *. rewrite filter_app, IH.
  destruct (matches_here b c) eqn:Hm.
  - apply andb_prop in Hm as [_ Hc]. apply N.eqb_eq in Hc. now subst c.
  - cbn [filter app]. now destruct (negb (c =? CR)%N).
Qed.

(** Reading the code units of [s] off by index gives [s] back. *)
Lemma flat_map_nth_error (r p : jsstring) :
  flat_map
    (fun i => match nth_error (p ++ r) i with
              | Some c => [c]
              | None => []
              end)
    (seq (List.length p) (List.length r)) = r.
Proof.
  revert p. induction r as [|c r IH]; intro p; [reflexivity|].
  cbn [List.length seq flat_map].
  rewrite nth_error_app2 by lia. rewrite Nat.sub_diag. cbn [nth_error app].
  f_equal. specialize (IH (p ++ [c])).
  rewrite length_app, <- app_assoc in IH. cbn in IH.
  replace (List.length p + 1)%nat with (S (List.length p)) in IH by lia.
  exact IH.
Qed.

Lemma bare_LF_at_beyond (s : jsstring) (i : nat) :
  (List.length s <= i)%nat -> bare_LF_at s i = false.
Proof.
  intro H. unfold bare_LF_at.
  now rewrite (proj2 (nth_error_None s i) H).
Qed.

Lemma normalize_length_on (s : jsstring) (l : list nat) :
  Forall (fun i => (i < List.length s)%nat) l ->
  List.length
    (flat_map
       (fun i => match nth_error s i with
                 | Some c => if bare_LF_at s i then [CR; LF] else [c]
                 | None => []
                 end) l)
  = (List.length l + List.length (filter (bare_LF_at s) l))%nat.
Proof.
  induction 1 as [|i l Hi _ IH]; [reflexivity|].
  cbn [flat_map filter]. rewrite length_app, IH.
  destruct (nth_error s i) eqn:E.
  - destruct (bare_LF_at s i); cbn; lia.
  - apply nth_error_None in E. lia.
Qed.

Lemma processedStr_length (s : jsstring) :
  List.length (processedStr s) = (List.length s + count_bare_LF s)%nat.
Proof.
  rewrite processedStr_normalize. unfold normalize, count_bare_LF.
  rewrite normalize_length_on.
  - now rewrite length_seq.
  - apply Forall_forall. intros i Hi. apply in_seq in Hi. lia.
Qed.

Lemma processedStr_fixed_iff (s : jsstring) :
  processedStr s = s <-> (forall i, bare_LF_at s i = false).
Proof.
  split.
  - intros H i.
    destruct (Nat.lt_ge_cases i (List.length s)) as [Hi|Hi];
      [|now apply bare_LF_at_beyond].
    pose proof (processedStr_length s) as L. rewrite H in L.
    assert (Z0 : count_bare_LF s = 0%nat) by lia.
    unfold count_bare_LF in Z0. apply length_zero_iff_nil in Z0.
    destruct (bare_LF_at s i) eqn:E; [|reflexivity].
    assert (Hin : In i (filter (bare_LF_at s) (seq 0 (List.length s)))).
    { apply filter_In. split; [apply in_seq; lia | exact E]. }
    rewrite Z0 in Hin. destruct Hin.
  - intro H. rewrite processedStr_normalize. unfold normalize.
    transitivity
      (flat_map (fun i => match nth_error s i with
                          | Some c => [c]
                          | None => []
                          end)
         (seq 0 (List.length s))).
    + apply flat_map_ext. intro i. now rewrite H.
    + exact (flat_map_nth_error s []).
Qed.

Lemma processedStr_no_bare_LF (s : jsstring) (i : nat) :
  bare_LF_at (processedStr s) i = false.
Proof.
  apply processedStr_fixed_iff, processedStr_idempotent.
Qed.

End ReplaceMore.

(** X1. In the text [write] hands the terminal every line feed comes
    right after a carriage return, whatever the input was. *)
Theorem forwarded_line_feeds_follow_carriage_returns :
  forall (str : jsstring) (i : nat),
    nth_error (processedStr str) i = Some LF ->
    exists j, i = S j /\ nth_error (processedStr str) j = Some CR.
Proof.
  intros str i H.
  pose proof (processedStr_no_bare_LF str i) as B.
  unfold bare_LF_at in B. rewrite H in B. cbn in B.
  destruct i as [|j]; [discriminate|].
  exists j. split; [reflexivity|].
  destruct (nth_error (processedStr str) j) as [p|]; [|discriminate].
  apply negb_false_iff, N.eqb_eq in B. now subst p.
Qed.

Lemma forwarded_line_feeds_follow_carriage_returns_witness :
  nth_error (processedStr [LF; CR; LF]) 1 = Some LF
  /\ exists j, 1%nat = S j /\ nth_error (processedStr [LF; CR; LF]) j = Some CR.
Proof.
  split; [reflexivity|].
  exact (forwarded_line_feeds_follow_carriage_returns [LF; CR; LF] 1 eq_refl).
Defined.

(** X2. Applying the replacement of [write] to its own output changes
    nothing, for every string (carriage returns in the input included). *)
Theorem normalization_idempotent_on_every_string :
  forall str : jsstring,
    processedStr (processedStr str) = processedStr str.
Proof. intro str. now apply replace_from_idempotent. Qed.

(** X3. [write] forwards a string unchanged exactly when none of its line
    feeds is bare, that is when each one follows a carriage return. *)
Theorem write_leaves_exactly_clean_strings_alone :
  forall str : jsstring,
    processedStr str = str <-> (forall i, bare_LF_at str i = false).
Proof. exact processedStr_fixed_iff. Qed.

(** X4. The replacement only ever inserts carriage returns: with the
    carriage returns taken out, what [write] forwards and what it was given
    are the same string. *)
Theorem normalization_only_inserts_carriage_returns :
  forall str : jsstring,
    strip_CR (processedStr str) = strip_CR str.
Proof. intro str. apply strip_CR_replace_from. Qed.

(** X5. The forwarded string is longer than the input by exactly the
    number of bare line feeds, so never shorter than the input and at most
    twice as long. *)
Theorem normalization_length :
  forall str : jsstring,
    List.length (processedStr str)
      = (List.length str + count_bare_LF str)%nat
    /\ (List.length str <= List.length (processedStr str)
        <= 2 * List.length str)%nat.
Proof.
  intro str. pose proof (processedStr_length str) as L. split; [exact L|].
  assert (B : (count_bare_LF str <= List.length str)%nat).
  { unfold count_bare_LF.
    etransitivity; [apply filter_length_le | now rewrite length_seq]. }
  lia.
Qed.

Lemma write_leaves_exactly_clean_strings_alone_witness :
  processedStr [CR; LF] = [CR; LF].
Proof.
  apply (proj2 (write_leaves_exactly_clean_strings_alone [CR; LF])).
  intros [|[|[|i]]]; reflexivity.
Defined.

(** X6. Writing a text in two pieces forwards the same code units as
    writing it at once, unless the cut falls between a carriage return and
    its line feed: the look-behind does not see the previous [write], so the
    line feed that opens the second piece gets a carriage return of its own
    and the terminal receives what one [write] of the text with a doubled
    carriage return would have sent. *)
Theorem write_in_two_pieces :
  (forall p q : jsstring,
     ~ (last_unit p = Some CR /\ hd_error q = Some LF) ->
     processedStr p ++ processedStr q = processedStr (p ++ q))
  /\ (forall p q : jsstring,
        last_unit p = Some CR ->
        processedStr p ++ processedStr (LF :: q)
          = processedStr (p ++ CR :: LF :: q)
        /\ exists tail,
             processedStr (p ++ LF :: q) = processedStr p ++ tail
             /\ processedStr p ++ processedStr (LF :: q)
                = processedStr p ++ CR :: tail).
Proof.
  split.
  - intros p q H. unfold processedStr. rewrite replace_from_app. f_equal.
    apply replace_from_before. intros c Hc.
    destruct (last_unit p) as [d|] eqn:E; [|reflexivity].
    unfold matches_here, not_after_CR.
    destruct (N.eqb_spec d CR) as [->|Hd]; [|reflexivity].
    destruct (N.eqb_spec c LF) as [->|Hl]; [|reflexivity].
    exfalso. apply H. now split.
  - intros p q H. unfold processedStr. rewrite !replace_from_app, H. split.
    + reflexivity.
    + exists (LF :: replace_from (Some LF) q). split; reflexivity.
Qed.

Lemma write_in_two_pieces_witness :
  (~ (last_unit (lit "a") = Some CR /\ hd_error [LF] = Some LF)
   /\ processedStr (lit "a") ++ processedStr [LF] = processedStr (lit "a" ++ [LF]))
  /\ (last_unit [CR] = Some CR
      /\ processedStr [CR] ++ processedStr [LF] = [CR; CR; LF]
      /\ processedStr ([CR] ++ [LF]) = [CR; LF]).
Proof.
  assert (H : ~ (last_unit (lit "a") = Some CR /\ hd_error [LF] = Some LF)).
  { intros [E _]. discriminate E. }
  split.
  - split; [exact H|]. exact (proj1 write_in_two_pieces (lit "a") [LF] H).
  - split; [reflexivity|]. split; [|reflexivity].
    exact (proj1 (proj2 write_in_two_pieces [CR] [] eq_refl)).
Defined.

Section Traces.

Lemma calls_of_app f tr tr' :
  calls_of f (tr ++ tr') = calls_of f tr ++ calls_of f tr'.
Proof. apply flat_map_app. Qed.

Lemma written_map_TermWrite ws : written (map TermWrite ws) = ws.
Proof. induction ws as [|w ws IH]; [reflexivity|]. cbn. now f_equal. Qed.

Lemma written_publication src eventName args h :
  written (publication src eventName args h) = [].
Proof.
  unfold publication. cbn.
  induction (EventEmitter.listeners eventName (events_of src h));
    [reflexivity | assumption].
Qed.

Lemma written_input_events h data : written (input_events h data) = [].
Proof.
  unfold input_events.
  induction (Terminal.onData (term h)) as [|l ls IH]; [reflexivity|].
  cbn [flat_map]. rewrite written_app, IH.
  destruct l; cbn [data_events]; [now rewrite written_publication | reflexivity].
Qed.

Lemma write_all_run strs s :
  write_all strs s =
  (tt, mkState (heap s)
         (trace s ++ map (fun str => TermWrite (processedStr str)) strs)).
Proof.
  unfold write_all. revert s.
  induction strs as [|str strs IH]; intro s.
  - destruct s. cbn. now rewrite app_nil_r.
  - cbn [for_each map]. unfold bind at 1 2. rewrite write_run.
    cbn [completion]. unfold ret at 1. rewrite IH. cbn [heap trace].
    now rewrite <- app_assoc.
Qed.

End Traces.

(** X7. A run of [write] calls reaches the terminal as one [term.write]
    per call, in call order, each carrying the replacement of its own
    argument: nothing is merged, reordered or held back, and the heap is
    left alone. *)
Theorem writes_are_forwarded_one_by_one_in_order :
  forall (strs : list jsstring) (s : State),
    written (trace (exec (write_all strs) s))
      = written (trace s) ++ map processedStr strs
    /\ heap (exec (write_all strs) s) = heap s.
Proof.
  intros strs s. unfold exec. rewrite write_all_run. cbn [snd trace heap].
  split; [|reflexivity].
  rewrite written_app. f_equal.
  rewrite <- (written_map_TermWrite (map processedStr strs)).
  now rewrite map_map.
Qed.

(** X8. The completion callback handed to [end] runs exactly when the
    final text is a non-empty string, once, after that text was forwarded;
    with no text or with the empty string neither the terminal nor the
    callback is reached.  [end] returns the stream in every case. *)
Theorem end_runs_callback_only_with_text :
  forall (chunk : option jsstring) (f : callback) (s : State),
    result (end_ chunk (Some f)) s = Stdout
    /\ calls_of f (trace (exec (end_ chunk (Some f)) s))
       = calls_of f (trace s) ++ (if truthy_string chunk then [[]] else [])
    /\ written (trace (exec (end_ chunk (Some f)) s))
       = written (trace s)
           ++ match chunk with
              | Some (c :: str) => [processedStr (c :: str)]
              | _ => []
              end
    /\ heap (exec (end_ chunk (Some f)) s) = heap s.
Proof.
  intros chunk f s. unfold exec, result.
  destruct chunk as [[|c str]|].
  - rewrite end_falsy_run by reflexivity. cbn. now rewrite !app_nil_r.
  - rewrite end_truthy_run, write_run. cbn [fst snd trace heap truthy_string].
    rewrite calls_of_app, written_app. cbn. now rewrite Nat.eqb_refl.
  - rewrite end_falsy_run by reflexivity. cbn. now rewrite !app_nil_r.
Qed.

(* ================================================================== *)
(** * More on the cached dimensions *)

Lemma synced_twice h : synced (synced h) = synced h.
Proof. reflexivity. Qed.

(** X9. The stream does not watch the terminal: after
    [terminal.resize(c, r)] alone [getWindowSize()] still answers the cached
    size; once [updateDimensions()] has run it answers the [cols] and [rows]
    the terminal now has (what the terminal made of the request). *)
Theorem window_size_is_stale_until_synced :
  forall (c r : Z) (s : State),
    result getWindowSize (exec (Terminal_resize c r) s)
      = result getWindowSize s
    /\ result getWindowSize (exec (Terminal_resize c r ;; updateDimensions) s)
      = (Terminal.cols (term (heap (exec (Terminal_resize c r) s))),
         Terminal.rows (term (heap (exec (Terminal_resize c r) s)))).
Proof.
  intros c r s. split; [reflexivity|].
  unfold exec, bind. cbn [Terminal_resize modify].
  now rewrite updateDimensions_run.
Qed.

(** X10. [updateDimensions()] does not compare old and new sizes: called
    twice in a row it leaves the heap of one call and still publishes
    "resize" twice; and it never writes to the terminal. *)
Theorem updateDimensions_notifies_even_without_change :
  forall s : State,
    heap (exec (updateDimensions ;; updateDimensions) s)
      = heap (exec updateDimensions s)
    /\ emitted Stdout (trace (exec (updateDimensions ;; updateDimensions) s))
      = emitted Stdout (trace s)
          ++ [("resize"%string, []); ("resize"%string, [])]
    /\ written (trace (exec (updateDimensions ;; updateDimensions) s))
      = written (trace s).
Proof.
  intro s. unfold exec, bind. rewrite !updateDimensions_run.
  cbn [snd heap trace]. rewrite synced_twice.
  repeat split.
  - rewrite !emitted_app, !emitted_publication. now rewrite <- app_assoc.
  - rewrite !written_app, !written_publication. now rewrite !app_nil_r.
Qed.

(* ================================================================== *)
(** * More on the cursor operations *)

(** X11. For any two numbers, [moveCursor] makes one [term.write] per
    delta that is above or below 0 and none for a delta that is 0 or NaN.
    The number rendered in a sequence is always above 0: the delta itself
    before the letter C (horizontal) or B (vertical), or the negation of a
    delta below 0 before the letter D or A. *)
Theorem moveCursor_counts_are_positive :
  forall (dx dy : number) cb (s : State),
    exists ws : list jsstring,
      written (trace (exec (moveCursor dx dy cb) s)) = written (trace s) ++ ws
      /\ List.length ws
         = ((if gt_zero dx || lt_zero dx then 1 else 0)
            + (if gt_zero dy || lt_zero dy then 1 else 0))%nat
      /\ forall w, In w ws ->
           exists n final,
             gt_zero n = true
             /\ w = move_sequence n final
             /\ ((n = dx /\ final = "C"%string)
                 \/ (n = Number_neg dx /\ lt_zero dx = true /\ final = "D"%string)
                 \/ (n = dy /\ final = "B"%string)
                 \/ (n = Number_neg dy /\ lt_zero dy = true /\ final = "A"%string)).
Proof.
  intros dx dy cb s.
  exists (move_writes dx "C" "D" ++ move_writes dy "B" "A"). split; [|split].
  - unfold exec. rewrite moveCursor_run. cbn [snd trace].
    rewrite !written_app, written_map_TermWrite, written_completion.
    now rewrite app_nil_r.
  - rewrite length_app. unfold move_writes.
    destruct (gt_zero dx) eqn:Gx, (gt_zero dy) eqn:Gy;
      rewrite ?(gt_zero_not_lt_zero dx Gx), ?(gt_zero_not_lt_zero dy Gy);
      cbn [orb]; destruct (lt_zero dx), (lt_zero dy); reflexivity.
  - intros w Hw. unfold move_writes in Hw.
    repeat (apply in_app_or in Hw; destruct Hw as [Hw|Hw]).
    + destruct (gt_zero dx) eqn:G; cbv iota in Hw; [|destruct Hw].
      destruct Hw as [<-|[]].
      exists dx, "C"%string. repeat split; auto.
    + destruct (lt_zero dx) eqn:L; cbv iota in Hw; [|destruct Hw].
      destruct Hw as [<-|[]].
      exists (Number_neg dx), "D"%string.
      split; [now apply lt_zero_neg_gt_zero|]. split; [reflexivity|]. auto.
    + destruct (gt_zero dy) eqn:G; cbv iota in Hw; [|destruct Hw].
      destruct Hw as [<-|[]].
      exists dy, "B"%string. repeat split; auto.
    + destruct (lt_zero dy) eqn:L; cbv iota in Hw; [|destruct Hw].
      destruct Hw as [<-|[]].
      exists (Number_neg dy), "A"%string.
      split; [now apply lt_zero_neg_gt_zero|]. split; [reflexivity|].
      right. right. right. auto.
Qed.

Lemma moveCursor_counts_are_positive_witness :
  exists ws : list jsstring,
    written (trace (exec (moveCursor (of_Z (-2)) NaN None) fresh))
      = written (trace fresh) ++ ws
    /\ List.length ws = 1%nat
    /\ forall w, In w ws ->
         exists n final,
           gt_zero n = true
           /\ w = move_sequence n final
           /\ ((n = of_Z (-2) /\ final = "C"%string)
               \/ (n = Number_neg (of_Z (-2)) /\ lt_zero (of_Z (-2)) = true
                   /\ final = "D"%string)
               \/ (n = NaN /\ final = "B"%string)
               \/ (n = Number_neg NaN /\ lt_zero NaN = true /\ final = "A"%string)).
Proof. exact (moveCursor_counts_are_positive (of_Z (-2)) NaN None fresh). Defined.

(* ================================================================== *)
(** * More on the input adapter *)

Lemma exec_bind {A B} (m : M A) (k : A -> M B) (s : State) :
  exec (bind m k) s = exec (k (result m s)) (exec m s).
Proof. unfold exec, result, bind. now destruct (m s). Qed.

(** X12. [pause()], [setRawMode(mode)] and [setEncoding(name)] do not
    suspend or alter delivery: after them every chunk the terminal reports
    is still published as "data", once, in order. *)
Theorem pause_and_raw_mode_do_not_stop_input :
  forall (mode : bool) (name : jsstring) (chunks : list jsstring) (s : State),
    forwarders (term (heap s)) = 1%nat ->
    emitted Stdin
      (trace (exec (pause ;; setRawMode mode ;; setEncoding name ;;
                    Terminal_inputs chunks) s))
    = emitted Stdin (trace s)
        ++ map (fun c => ("data"%string, [VString c])) chunks.
Proof.
  intros mode name chunks s H.
  rewrite !exec_bind.
  unfold exec at 1. rewrite Terminal_inputs_run. cbn [snd trace heap].
  rewrite emitted_app. f_equal.
  induction chunks as [|c chunks IH]; [reflexivity|].
  cbn [flat_map map]. rewrite emitted_app, IH, emitted_input_events.
  cbn. now rewrite H.
Qed.

Lemma pause_and_raw_mode_do_not_stop_input_witness :
  forwarders (term (heap fresh)) = 1%nat
  /\ emitted Stdin
       (trace (exec (pause ;; setRawMode false ;; setEncoding (lit "utf-8") ;;
                     Terminal_inputs [lit "x"; lit "y"]) fresh))
     = [("data"%string, [VString (lit "x")]);
        ("data"%string, [VString (lit "y")])].
Proof.
  split; [reflexivity|].
  exact (pause_and_raw_mode_do_not_stop_input
           false (lit "utf-8") [lit "x"; lit "y"] fresh eq_refl).
Defined.

(** X13. Input is never echoed: whatever the terminal reports and whoever
    is subscribed, the adapters make no [term.write] call while it is
    delivered, and [read()] afterwards still answers [null] because no chunk
    is kept. *)
Theorem input_is_not_echoed_nor_buffered :
  forall (chunks : list jsstring) (size : option Z) (s : State),
    written (trace (exec (Terminal_inputs chunks) s)) = written (trace s)
    /\ stdin (heap (exec (Terminal_inputs chunks) s)) = stdin (heap s)
    /\ result (read size) (exec (Terminal_inputs chunks) s) = None.
Proof.
  intros chunks size s. unfold exec. rewrite Terminal_inputs_run.
  cbn [snd trace heap]. repeat split.
  rewrite written_app.
  assert (E : written (flat_map (input_events (heap s)) chunks) = []).
  { induction chunks as [|c chunks IH]; [reflexivity|].
    cbn [flat_map]. now rewrite written_app, written_input_events, IH. }
  now rewrite E, app_nil_r.
Qed.

(* ================================================================== *)
(** * components/Tinky.tsx: how the terminal gets its size *)

Section ResizeEffect.

Lemma gt_zero_whole (z : Z) :
  gt_zero (Finite (inject_Z z)) = true <-> (0 < z)%Z.
Proof.
  cbn [gt_zero]. rewrite negb_true_iff.
  change 0%Q with (inject_Z 0).
  split.
  - intro H. destruct (Z_lt_le_dec 0 z) as [L|L]; [exact L|].
    rewrite Zle_Qle in L. apply Qle_bool_iff in L. congruence.
  - intro H. destruct (Qle_bool (inject_Z z) (inject_Z 0)) eqn:E; [|reflexivity].
    apply Qle_bool_iff in E. rewrite <- Zle_Qle in E. lia.
Qed.

Lemma gt_zero_floor (n : number) :
  gt_zero (Math_floor (Some n)) = true -> positive_whole (Math_floor (Some n)).
Proof.
  destruct n as [q| |[|]]; cbn [Math_floor]; intro H.
  - left. exists (Qfloor q). split; [now apply gt_zero_whole | reflexivity].
  - discriminate H.
  - discriminate H.
  - now right.
Qed.

Lemma onContainerSizeChanged_positive cols rows fitAddon a b :
  Tinky.onContainerSizeChanged cols rows fitAddon = Some (a, b) ->
  positive_whole a /\ positive_whole b.
Proof.
  unfold Tinky.onContainerSizeChanged.
  destruct fitAddon as [[d|]|]; try discriminate.
  destruct (gt_zero (Math_floor (Some (nullish cols (ITerminalDimensions.cols d)))))
    eqn:Ec; [|discriminate].
  destruct (gt_zero (Math_floor (Some (nullish rows (ITerminalDimensions.rows d)))))
    eqn:Er; [|discriminate].
  cbn [andb]. intros [= <- <-]. split; now apply gt_zero_floor.
Qed.

Lemma falsy_floor_not_positive (c : number) :
  truthy_number (Some c) = false -> gt_zero (Math_floor (Some c)) = false.
Proof.
  destruct c as [q| |neg]; cbn [truthy_number Math_floor]; intro H.
  - apply negb_false_iff, Qeq_bool_iff in H.
    rewrite (Qfloor_comp _ _ H). reflexivity.
  - reflexivity.
  - discriminate H.
Qed.

Lemma floor_below_one (q : Q) : (q < 1)%Q -> (Qfloor q <= 0)%Z.
Proof.
  intro H.
  assert (L : (inject_Z (Qfloor q) < inject_Z 1)%Q).
  { eapply Qle_lt_trans; [apply Qfloor_le | exact H]. }
  rewrite <- Zlt_Qlt in L. lia.
Qed.

End ResizeEffect.

(** X14. In auto-fit mode (the effect leaves a [ResizeObserver]) the
    terminal is only ever resized to strictly positive whole sizes: every
    [terminal.resize] the effect or a later container change makes has two
    arguments that are positive integers (or +Infinity). *)
Theorem auto_fit_resizes_only_to_positive_sizes :
  forall terminal container cols rows fitAddon a b,
    (Tinky.resize_effect terminal container cols rows fitAddon
       = Tinky.mkOutcome (Some (a, b)) true
     \/ Tinky.onContainerSizeChanged cols rows fitAddon = Some (a, b)) ->
    positive_whole a /\ positive_whole b.
Proof.
  intros terminal container cols rows fitAddon a b [H|H];
    [|now apply onContainerSizeChanged_positive in H].
  unfold Tinky.resize_effect in H.
  destruct (negb terminal || negb container); [discriminate|].
  destruct (truthy_number cols && truthy_number rows); [discriminate|].
  injection H as H. now apply onContainerSizeChanged_positive in H.
Qed.

Lemma auto_fit_resizes_only_to_positive_sizes_witness :
  positive_whole (Finite 100) /\ positive_whole (Finite 30).
Proof.
  apply (auto_fit_resizes_only_to_positive_sizes true true
           (Some (Finite (201 # 2))) None
           (Some (Some (ITerminalDimensions.mk (Finite (61 # 2)) (Finite 80))))).
  left. reflexivity.
Defined.

(** X15. Fixed mode is entered on truthiness alone: when [cols] and [rows]
    are both truthy the terminal is resized to their floors, no observer is
    installed and the container's proposal is not looked at.  The
    positivity test of auto-fit is not applied there: a [cols] that is not
    zero but below 1 passes the truthiness test although its floor is not
    positive. *)
Theorem fixed_mode_skips_the_positivity_check :
  (forall c r fitAddon,
     truthy_number (Some c) = true ->
     truthy_number (Some r) = true ->
     Tinky.resize_effect true true (Some c) (Some r) fitAddon
       = Tinky.mkOutcome (Some (Math_floor (Some c), Math_floor (Some r))) false)
  /\ (forall q : Q,
        ~ (q == 0)%Q -> (q < 1)%Q ->
        truthy_number (Some (Finite q)) = true
        /\ gt_zero (Math_floor (Some (Finite q))) = false
        /\ exists z : Z, (z <= 0)%Z
             /\ Math_floor (Some (Finite q)) = Finite (inject_Z z)).
Proof.
  split.
  - intros c r fitAddon Hc Hr. unfold Tinky.resize_effect.
    cbn [negb orb]. now rewrite Hc, Hr.
  - intros q Hq H1. split; [|split].
    + cbn. apply negb_true_iff.
      destruct (Qeq_bool q 0) eqn:E; [|reflexivity].
      apply Qeq_bool_iff in E. contradiction.
    + cbn [Math_floor].
      destruct (gt_zero (Finite (inject_Z (Qfloor q)))) eqn:E; [|reflexivity].
      apply gt_zero_whole in E. pose proof (floor_below_one q H1). lia.
    + exists (Qfloor q). split; [now apply floor_below_one | reflexivity].
Qed.

Lemma fixed_mode_skips_the_positivity_check_witness :
  Tinky.resize_effect true true (Some (Finite (1 # 2))) (Some (Finite 24)) None
    = Tinky.mkOutcome (Some (Finite 0, Finite 24)) false
  /\ gt_zero (Math_floor (Some (Finite (1 # 2)))) = false.
Proof.
  split.
  - exact (proj1 fixed_mode_skips_the_positivity_check
             (Finite (1 # 2)) (Finite 24) None eq_refl eq_refl).
  - apply (proj2 fixed_mode_skips_the_positivity_check (1 # 2)).
    + intro E. discriminate E.
    + reflexivity.
Defined.

(** X16. A [cols] or [rows] prop that is given but falsy (0, -0, NaN) does
    not mean "automatic": [&&] sends the effect to auto-fit, [??] keeps the
    given value, and the positivity test then rejects every target.  The
    effect installs the observer and neither it nor any later container
    change resizes the terminal. *)
Theorem zero_prop_disables_resizing :
  forall (given : number) (other : option number) fitAddon,
    truthy_number (Some given) = false ->
    Tinky.resize_effect true true (Some given) other fitAddon
      = Tinky.mkOutcome None true
    /\ Tinky.resize_effect true true other (Some given) fitAddon
      = Tinky.mkOutcome None true
    /\ Tinky.onContainerSizeChanged (Some given) other fitAddon = None
    /\ Tinky.onContainerSizeChanged other (Some given) fitAddon = None.
Proof.
  intros given other fitAddon H.
  pose proof (falsy_floor_not_positive given H) as G.
  assert (A : Tinky.onContainerSizeChanged (Some given) other fitAddon = None).
  { unfold Tinky.onContainerSizeChanged.
    destruct fitAddon as [[d|]|]; try reflexivity.
    cbn [nullish]. now rewrite G. }
  assert (B : Tinky.onContainerSizeChanged other (Some given) fitAddon = None).
  { unfold Tinky.onContainerSizeChanged.
    destruct fitAddon as [[d|]|]; try reflexivity.
    cbn [nullish]. now rewrite G, andb_false_r. }
  unfold Tinky.resize_effect. cbn [negb orb].
  rewrite H, andb_false_r. cbn [andb]. now rewrite A, B.
Qed.

Lemma zero_prop_disables_resizing_witness :
  Tinky.resize_effect true true (Some (Finite 0)) None
    (Some (Some (ITerminalDimensions.mk (Finite 24) (Finite 80))))
  = Tinky.mkOutcome None true.
Proof.
  exact (proj1 (zero_prop_disables_resizing (Finite 0) None
                  (Some (Some (ITerminalDimensions.mk (Finite 24) (Finite 80))))
                  eq_refl)).
Defined.

(* ================================================================== *)
(** * components/Canvas.tsx: the size of the root box *)

Section CanvasFacts.

Lemma typeof_number (v : Canvas.unknown) :
  String.eqb (Canvas.typeof v) "number" = true <-> exists n, v = Canvas.JNumber n.
Proof.
  split.
  - destruct v; cbn; try discriminate. eauto.
  - intros [n ->]. reflexivity.
Qed.

Lemma hasValidDimensions_iff (v : Canvas.unknown) :
  Canvas.hasValidDimensions v = true <->
  exists props c r,
    v = Canvas.JObject props
    /\ Canvas.lookup "columns" props = Canvas.JNumber c
    /\ Canvas.lookup "rows" props = Canvas.JNumber r.
Proof.
  split.
  - destruct v as [ | |b|n|t|f|props]; cbn; try discriminate.
    intro H. apply andb_prop in H as [Hc Hr].
    apply typeof_number in Hc as [c Hc]. apply typeof_number in Hr as [r Hr].
    now exists props, c, r.
  - intros (props & c & r & -> & Hc & Hr).
    unfold Canvas.hasValidDimensions. cbn. now rewrite Hc, Hr.
Qed.

Lemma size_after_app onResize initial tr tr' :
  Canvas.size_after onResize initial (tr ++ tr')
  = Canvas.size_after onResize (Canvas.size_after onResize initial tr) tr'.
Proof. apply fold_left_app. Qed.

(** A publication on heap [h] brings the size to that of [h] exactly when
    the listener is among the subscribers called. *)
Lemma size_after_calls onResize h args ls initial :
  Canvas.size_after onResize initial (map (fun l => Call l args h) ls)
  = if existsb (fun l => Nat.eqb l onResize) ls
    then (TerminalWritableStream.columns (stdout h),
          TerminalWritableStream.rows (stdout h))
    else initial.
Proof.
  revert initial. induction ls as [|l ls IH]; intro initial; [reflexivity|].
  cbn [map existsb]. unfold Canvas.size_after in *. cbn [fold_left].
  rewrite IH. destruct (Nat.eqb l onResize); cbn [orb]; [|reflexivity].
  now destruct (existsb (fun l0 => Nat.eqb l0 onResize) ls).
Qed.

Lemma existsb_listener onResize ls :
  existsb (fun l => Nat.eqb l onResize) ls = true <-> In onResize ls.
Proof.
  rewrite existsb_exists. split.
  - intros (l & Hl & E). apply Nat.eqb_eq in E. now subst l.
  - intro H. exists onResize. split; [exact H | apply Nat.eqb_refl].
Qed.

End CanvasFacts.

(** X17. [hasValidDimensions] accepts exactly the objects whose [columns]
    and [rows] both read as numbers ([null], functions and primitives are
    refused).  Hence the first render always gives the box two numbers:
    80 and 24, or the two numbers read from [stdout]. *)
Theorem Canvas_first_render_is_numeric :
  (forall v : Canvas.unknown,
     Canvas.hasValidDimensions v = true <->
     exists props c r,
       v = Canvas.JObject props
       /\ Canvas.lookup "columns" props = Canvas.JNumber c
       /\ Canvas.lookup "rows" props = Canvas.JNumber r)
  /\ (forall window useStdout,
        exists w h,
          Canvas.Canvas window useStdout None
          = (Canvas.JNumber w, Canvas.JNumber h)).
Proof.
  split; [exact hasValidDimensions_iff|].
  intros window useStdout. unfold Canvas.Canvas, Canvas.fallback.
  destruct window; cbn [negb]; [|eauto].
  destruct useStdout as [v|]; [|eauto].
  destruct (Canvas.hasValidDimensions v) eqn:E; cbn [negb]; [|eauto].
  apply hasValidDimensions_iff in E as (props & c & r & -> & Hc & Hr).
  cbn [Canvas.get]. rewrite Hc, Hr. eauto.
Qed.

Lemma Canvas_first_render_is_numeric_witness :
  Canvas.hasValidDimensions
    (Canvas.JObject [("rows"%string, Canvas.JNumber (Finite 24));
                     ("columns"%string, Canvas.JNumber NaN)]) = true
  /\ Canvas.hasValidDimensions Canvas.JNull = false.
Proof.
  split.
  - apply (proj1 Canvas_first_render_is_numeric).
    exists [("rows"%string, Canvas.JNumber (Finite 24));
            ("columns"%string, Canvas.JNumber NaN)], NaN, (Finite 24).
    repeat split.
  - reflexivity.
Defined.

(** X18. A [TerminalWritableStream] always passes the type guard,
    whatever has been done to it.  So with such a stream as [stdout] the
    first render in a browser ([window] defined) sizes the box with the
    stream's cached [columns] and [rows]; where [window] is undefined the
    box is 80 x 24 all the same. *)
Theorem Canvas_uses_the_stream_dimensions :
  forall (s : State) (window : bool),
    Canvas.hasValidDimensions (Canvas.of_stream (stdout (heap s))) = true
    /\ Canvas.Canvas window (Some (Canvas.of_stream (stdout (heap s)))) None
       = if window
         then
           (Canvas.JNumber
              (Finite (inject_Z (TerminalWritableStream.columns (stdout (heap s))))),
            Canvas.JNumber
              (Finite (inject_Z (TerminalWritableStream.rows (stdout (heap s))))))
         else Canvas.fallback.
Proof. intros s [|]; split; reflexivity. Qed.

(** X19. Once the effect has subscribed [onResize] to the stream's
    "resize" channel, each [updateDimensions()] brings the component's size
    to the terminal's current size, whatever it held before; while the
    listener is not subscribed (and is not called otherwise) the call leaves
    the component's size as it was. *)
Theorem Canvas_follows_updateDimensions :
  forall (onResize : callback) (initial : Z * Z) (s : State),
    (In onResize
       (EventEmitter.listeners "resize"
          (TerminalWritableStream.events (stdout (heap s)))) ->
     Canvas.size_after onResize initial (trace (exec updateDimensions s))
     = (Terminal.cols (term (heap s)), Terminal.rows (term (heap s))))
    /\ (~ In onResize
          (EventEmitter.listeners "resize"
             (TerminalWritableStream.events (stdout (heap s)))) ->
        Canvas.size_after onResize initial (trace (exec updateDimensions s))
        = Canvas.size_after onResize initial (trace s)).
Proof.
  intros onResize initial s. unfold exec. rewrite updateDimensions_run.
  cbn [snd trace]. rewrite size_after_app. unfold publication.
  change (Emit Stdout "resize" [] (synced (heap s)) :: ?l)
    with ([Emit Stdout "resize" [] (synced (heap s))] ++ l).
  rewrite size_after_app, size_after_calls.
  change (events_of Stdout (synced (heap s)))
    with (TerminalWritableStream.events (stdout (heap s))).
  split; intro H.
  - rewrite (proj2 (existsb_listener _ _) H). reflexivity.
  - destruct (existsb (fun l => Nat.eqb l onResize)
                (EventEmitter.listeners "resize"
                   (TerminalWritableStream.events (stdout (heap s))))) eqn:E;
      [|reflexivity].
    apply existsb_listener in E. contradiction.
Qed.

Lemma Canvas_follows_updateDimensions_witness :
  Canvas.size_after 7%nat (80, 24)
    (trace (exec updateDimensions
              (exec (on Stdout "resize" 7%nat ;; Terminal_resize 120 40) fresh)))
  = (120, 40)
  /\ Canvas.size_after 7%nat (80, 24)
       (trace (exec updateDimensions (exec (Terminal_resize 120 40) fresh)))
     = (80, 24).
Proof.
  split.
  - apply (proj1 (Canvas_follows_updateDimensions 7%nat (80, 24)
                    (exec (on Stdout "resize" 7%nat ;; Terminal_resize 120 40)
                       fresh))).
    cbn. now left.
  - apply (proj2 (Canvas_follows_updateDimensions 7%nat (80, 24)
                    (exec (Terminal_resize 120 40) fresh))).
    cbn. tauto.
Defined.

(** X20. When [cursorTo]'s second argument is a function, a callback given
    third is lost: the call behaves as if it had not been passed, and that
    callback is never run. *)
Theorem cursorTo_loses_third_argument_after_a_function :
  forall (x : number) (f g : callback) (s : State),
    cursorTo x (Function f) (Some g) s = cursorTo x (Function f) None s
    /\ (g <> f ->
        calls_of g (trace (exec (cursorTo x (Function f) (Some g)) s))
        = calls_of g (trace s)).
Proof.
  intros x f g s. split; [reflexivity|].
  intro H. unfold exec. rewrite cursorTo_callback_run. cbn [snd trace].
  rewrite calls_of_app. cbn.
  destruct (Nat.eqb_spec f g) as [E|_]; [now subst|].
  now rewrite app_nil_r.
Qed.

Lemma cursorTo_loses_third_argument_after_a_function_witness :
  8%nat <> 7%nat
  /\ calls_of 8%nat
       (trace (exec (cursorTo (of_Z 5) (Function 7%nat) (Some 8%nat)) fresh))
     = calls_of 8%nat (trace fresh).
Proof.
  assert (H : 8%nat <> 7%nat) by discriminate.
  split; [exact H|].
  exact (proj2 (cursorTo_loses_third_argument_after_a_function
                  (of_Z 5) 7%nat 8%nat fresh) H).
Defined.
